(** * Survey coder (SurveyData/VRGroup/Script.py)

    A shallow embedding of the script that scores pre-test and post-test
    survey answers against a per-group answer key, and the properties its
    specification states about it.

    Modelling choices, all following the source:
    - a Python [str] is a sequence of Unicode code points ([list N]);
    - a Python value held in a table cell or in an output record is a
      [PyVal]; floats are not computed with, a non-NaN float is carried
      by the text [str()] gives for it;
    - a Python [dict] with string keys is a [gmap pystr _];
    - exceptions are threaded through an error monad ([result]);
    - the file system and pandas are the environment: the list returned
      by [glob.glob] and the behaviour of [pd.read_csv] are inputs, the
      table handed to [to_csv] and the printed lines are logged effects. *)

From Stdlib Require Import ZArith NArith Ascii String DecimalString.
From stdpp Require Import gmap list fin_maps.

Local Open Scope Z_scope.

#[local] Set Warnings "-clear-no-such-hyp".

(** ** Python strings *)

Abbreviation pystr := (list N).

(** A source-code literal (all the literals of the script are ASCII). *)
Definition lit (s : string) : pystr :=
  List.map N_of_ascii (list_ascii_of_string s).

(** [str.isspace] for one code point: the Unicode white-space table
    CPython uses for [str.strip()]. *)
Definition py_isspace (c : N) : bool :=
  ((9 <=? c) && (c <=? 13) ||
   (28 <=? c) && (c <=? 32) ||
   (c =? 133) || (c =? 160) || (c =? 5760) ||
   (8192 <=? c) && (c <=? 8202) ||
   (c =? 8232) || (c =? 8233) || (c =? 8239) || (c =? 8287) ||
   (c =? 12288))%N.

Fixpoint lstrip (s : pystr) : pystr :=
  match s with
  | c :: s' => if py_isspace c then lstrip s' else s
  | [] => []
  end.

Definition rstrip (s : pystr) : pystr := rev (lstrip (rev s)).

(** [s.strip()] *)
Definition strip (s : pystr) : pystr := rstrip (lstrip s).

(** [s.startswith(p)] *)
Fixpoint startswith (s p : pystr) {struct p} : bool :=
  match p, s with
  | [], _ => true
  | a :: p', b :: s' => if decide (a = b) then startswith s' p' else false
  | _ :: _, [] => false
  end.

(** [sub in s] for strings: [sub] occurs at some position of [s]. *)
Fixpoint py_contains (sub s : pystr) : bool :=
  startswith s sub ||
  match s with
  | [] => false
  | _ :: s' => py_contains sub s'
  end.

(** ** Python values *)

Inductive PyVal :=
| PStr (s : pystr)
| PInt (z : Z)
| PBool (b : bool)
| PNaN
| PFloat (repr : pystr).

#[global] Instance PyVal_eq_dec : EqDecision PyVal.
Proof. solve_decision. Defined.

(** [str(v)] *)
Definition py_str (v : PyVal) : pystr :=
  match v with
  | PStr s => s
  | PInt z => lit (NilZero.string_of_int (Z.to_int z))
  | PBool true => lit "True"
  | PBool false => lit "False"
  | PNaN => lit "nan"
  | PFloat repr => repr
  end.

(** [int(b)] for a [bool] *)
Definition py_int_of_bool (b : bool) : Z := if b then 1 else 0.

(** ** Exceptions *)

Inductive Exn :=
| FileNotFoundError
| RuntimeError
| KeyError (key : pystr)
| IndexError
| TypeError
| Unmodelled
| ReadError.

Inductive result (A : Type) :=
| Ok (a : A)
| Err (e : Exn).
Arguments Ok {A} a.
Arguments Err {A} e.

#[global] Instance result_ret : MRet result := λ A a, Ok a.
#[global] Instance result_bind : MBind result := λ A B k m,
  match m with
  | Ok a => k a
  | Err e => Err e
  end.

(** A [for] loop whose body may raise. *)
Fixpoint for_each {A S} (body : S → A → result S) (l : list A) (st : S)
  : result S :=
  match l with
  | [] => Ok st
  | x :: l' => st' ← body st x; for_each body l' st'
  end.

(** [d[k]] on a dict *)
Definition getitem {V} (d : gmap pystr V) (k : pystr) : result V :=
  match d !! k with
  | Some v => Ok v
  | None => Err (KeyError k)
  end.

(** A dict display [{k1: v1, k2: v2, ...}]: items are stored left to
    right, a repeated key keeps its last value. *)
Definition dict_of {V} (items : list (pystr * V)) : gmap pystr V :=
  fold_left (λ d kv, <[kv.1 := kv.2]> d) items ∅.

(** Item access [l[i]] on a list, for a non-negative index. *)
Definition list_getitem {A} (l : list A) (i : nat) : result A :=
  match l !! i with
  | Some x => Ok x
  | None => Err IndexError
  end.

(** [a + b] and [a - b]. The script only ever adds and subtracts [int]
    operands ([bool] is a subclass of [int]); a [str] operand raises
    [TypeError], float operands are outside the model. *)
Definition as_int (v : PyVal) : result Z :=
  match v with
  | PInt z => Ok z
  | PBool b => Ok (py_int_of_bool b)
  | PStr _ => Err TypeError
  | PNaN | PFloat _ => Err Unmodelled
  end.

Definition py_add (a b : PyVal) : result PyVal :=
  x ← as_int a; y ← as_int b; Ok (PInt (x + y)).

Definition py_sub (a b : PyVal) : result PyVal :=
  x ← as_int a; y ← as_int b; Ok (PInt (x - y)).

(** ** The loaded table

    [df.columns] is the header; every row produced by [df.iterrows()] is
    a Series indexed by the column labels, here a map from label to the
    value [row[col]] yields. *)
Record DataFrame := {
  columns : list pystr;
  rows : list (gmap pystr PyVal)
}.

(** A row Series is indexed by exactly the column labels of the table. *)
Definition row_of (cols : list pystr) (row : gmap pystr PyVal) : Prop :=
  dom row = list_to_set cols.

Definition well_formed (df : DataFrame) : Prop :=
  Forall (row_of (columns df)) (rows df).

(** ** Group configurations *)

Record GroupConfig := {
  group : pystr;
  PRE_COLS : list pystr;
  POST_COLS : list pystr;
  ANSWER_KEY : gmap pystr pystr
}.

(** The background questions, in the iteration order of [BG_COLS.items()]. *)
Definition BG_COLS : list (pystr * pystr) :=
  [ (lit "Q1", lit "cs_background");
    (lit "Q2", lit "nn_course");
    (lit "Q3_1", lit "derivative_familiarity") ].

Definition VR_PRE : list pystr :=
  List.map lit ["Q16";"Q17";"Q18";"Q19";"Q20";"Q21";"Q22";"Q23";"Q24";"Q25";"Q26";"Q27"]%string.
Definition VR_POST : list pystr :=
  List.map lit ["Q87";"Q88";"Q89";"Q90";"Q91";"Q92";"Q93";"Q94";"Q95";"Q96";"Q97";"Q98"]%string.

Definition VR_ANSWER_KEY : gmap pystr pystr :=
  dict_of
    [ (lit "Q16",
        lit "One entire pass over all training samples");
      (lit "Q17",
        lit "6 4 3 1 5 2");
      (lit "Q18",
        lit "A function measuring prediction error");
      (lit "Q19",
        lit "Inputs are weighted and summed through the network");
      (lit "Q20",
        lit "Inputs are weighted and summed through the network");
      (lit "Q21",
        lit "Combining the outputs of previous neurons to generate the result of the network.");
      (lit "Q22",
        lit "Determine the influence strength of an input on the neuron's output");
      (lit "Q23",
        lit "Computes how errors change with respect to weights and biases");
      (lit "Q24",
        lit "It provides feedback on how far predictions are from actual targets");
      (lit "Q25",
        lit "2,3");
      (lit "Q26",
        lit "To enable the activation function to shift left or right");
      (lit "Q27",
        lit "Bias is learned during training like weights");
      (lit "Q87",
        lit "One entire pass over all training samples");
      (lit "Q88",
        lit "6 4 3 1 5 2");
      (lit "Q89",
        lit "A function measuring prediction error");
      (lit "Q90",
        lit "Inputs are weighted and summed through the network");
      (lit "Q91",
        lit "Inputs are weighted and summed through the network");
      (lit "Q92",
        lit "Combining the outputs of previous neurons to generate the result of the network.");
      (lit "Q93",
        lit "Determine the influence strength of an input on the neuron's output");
      (lit "Q94",
        lit "Computes how errors change with respect to weights and biases");
      (lit "Q95",
        lit "It provides feedback on how far predictions are from actual targets");
      (lit "Q96",
        lit "2,3");
      (lit "Q97",
        lit "To enable the activation function to shift left or right");
      (lit "Q98",
        lit "Bias is learned during training like weights") ].

Definition VR_CONFIG : GroupConfig :=
  {| group := lit "VR"; PRE_COLS := VR_PRE; POST_COLS := VR_POST;
     ANSWER_KEY := VR_ANSWER_KEY |}.

Definition Video_PRE : list pystr :=
  List.map lit ["Q48";"Q49";"Q50";"Q51";"Q52";"Q53";"Q54";"Q55";"Q56";"Q57";"Q52.1";"Q55.1"]%string.
Definition Video_POST : list pystr :=
  List.map lit ["Q71";"Q72";"Q73";"Q74";"Q75";"Q76";"Q77";"Q78";"Q79";"Q80";"Q81";"Q84"]%string.

Definition Video_ANSWER_KEY : gmap pystr pystr :=
  dict_of
    [ (lit "Q48",
        lit "One entire pass over all training samples");
      (lit "Q49",
        lit "6 4 3 1 5 2");
      (lit "Q50",
        lit "A function measuring prediction error");
      (lit "Q51",
        lit "Inputs are weighted and summed through the network");
      (lit "Q52",
        lit "Inputs are weighted and summed through the network");
      (lit "Q53",
        lit "Combining the outputs of previous neurons to generate the result of the network.");
      (lit "Q54",
        lit "Determine the influence strength of an input on the neuron's output");
      (lit "Q55",
        lit "Computes how errors change with respect to weights and biases");
      (lit "Q56",
        lit "It provides feedback on how far predictions are from actual targets");
      (lit "Q57",
        lit "2,3");
      (lit "Q52.1",
        lit "To enable the activation function to shift left or right");
      (lit "Q55.1",
        lit "Bias is learned during training like weights");
      (lit "Q71",
        lit "One entire pass over all training samples");
      (lit "Q72",
        lit "6 4 3 1 5 2");
      (lit "Q73",
        lit "A function measuring prediction error");
      (lit "Q74",
        lit "Inputs are weighted and summed through the network");
      (lit "Q75",
        lit "Inputs are weighted and summed through the network");
      (lit "Q76",
        lit "Combining the outputs of previous neurons to generate the result of the network.");
      (lit "Q77",
        lit "Determine the influence strength of an input on the neuron's output");
      (lit "Q78",
        lit "Computes how errors change with respect to weights and biases");
      (lit "Q79",
        lit "It provides feedback on how far predictions are from actual targets");
      (lit "Q80",
        lit "2,3");
      (lit "Q81",
        lit "To enable the activation function to shift left or right");
      (lit "Q84",
        lit "Bias is learned during training like weights") ].

Definition Video_CONFIG : GroupConfig :=
  {| group := lit "Video"; PRE_COLS := Video_PRE; POST_COLS := Video_POST;
     ANSWER_KEY := Video_ANSWER_KEY |}.

(** [if "VR" in file_name: ... else: ...] *)
Definition select_config (file_name : pystr) : GroupConfig :=
  if py_contains (lit "VR") file_name then VR_CONFIG else Video_CONFIG.

(** ** Scoring one participant *)

(** [answer not in ["nan", "NaN", ""]], negated *)
Definition is_missing (answer : pystr) : bool :=
  bool_decide (answer ∈ [lit "nan"; lit "NaN"; lit ""]).

(** Body of the two scoring loops; the state is the record under
    construction and the running score. *)
Definition score_step (cfg : GroupConfig) (df_columns : list pystr)
    (row : gmap pystr PyVal) (st : gmap pystr PyVal * PyVal) (col : pystr)
  : result (gmap pystr PyVal * PyVal) :=
  let '(rec, score) := st in
  if bool_decide (col ∈ df_columns) then
    cell ← getitem row col;
    let answer := strip (py_str cell) in
    if is_missing answer then Ok (rec, score)
    else
      key ← getitem (ANSWER_KEY cfg) col;
      let rec := <[col := PInt (py_int_of_bool (bool_decide (answer = key)))]> rec in
      flag ← getitem rec col;
      score ← py_add score flag;
      Ok (rec, score)
  else Ok (rec, score).

(** Body of the background loop. *)
Definition bg_step (df_columns : list pystr) (row : gmap pystr PyVal)
    (rec : gmap pystr PyVal) (item : pystr * pystr)
  : result (gmap pystr PyVal) :=
  let '(col, newname) := item in
  if bool_decide (col ∈ df_columns) then
    cell ← getitem row col;
    Ok (<[newname := cell]> rec)
  else Ok rec.

(** Body of [for idx, row in df.iterrows()], up to [records.append]. *)
Definition build_record (cfg : GroupConfig) (df_columns : list pystr)
    (idx : Z) (row : gmap pystr PyVal) : result (gmap pystr PyVal) :=
  let rec := dict_of [(lit "id", PInt idx); (lit "group", PStr (group cfg))] in
  rec ← for_each (bg_step df_columns row) BG_COLS rec;
  '(rec, pre_score) ←
    for_each (score_step cfg df_columns row) (PRE_COLS cfg) (rec, PInt 0);
  let rec := <[lit "pre_score" := pre_score]> rec in
  '(rec, post_score) ←
    for_each (score_step cfg df_columns row) (POST_COLS cfg) (rec, PInt 0);
  let rec := <[lit "post_score" := post_score]> rec in
  post ← getitem rec (lit "post_score");
  pre ← getitem rec (lit "pre_score");
  gain ← py_sub post pre;
  Ok (<[lit "gain" := gain]> rec).

(** The participant loop: rows are visited in table order, [idx] is the
    label of the default integer index, and each record is appended. *)
Definition process (cfg : GroupConfig) (df : DataFrame)
  : result (list (gmap pystr PyVal)) :=
  for_each
    (λ records '(idx, row),
       rec ← build_record cfg (columns df) (Z.of_nat idx) row;
       Ok (records ++ [rec]))
    (imap (λ i row, (i, row)) (rows df)) [].

(** ** The whole run

    The environment of a run: the base names of the paths returned by
    [glob.glob(os.path.join(script_dir, "*.csv"))], in the order glob
    lists them (all lie in [script_dir], so [os.path.basename] gives the
    name back), and what [pd.read_csv] does on each of them.

    The observable effects, in order: the table handed to [to_csv]
    (the list of records, under the name of the file written in
    [script_dir]) and the two [print] calls. *)
Record Env := {
  glob_csv : list pystr;
  read_csv : pystr → result DataFrame
}.

Inductive Effect :=
| ToCsv (out_name : pystr) (records : list (gmap pystr PyVal))
| PrintSaved (out_name : pystr)
| PrintHead (records : list (gmap pystr PyVal)).

(** A statement sequence: it extends the trace of effects and either
    returns or raises. *)
Definition Prog (A : Type) : Type := list Effect → list Effect * result A.

#[global] Instance Prog_ret : MRet Prog := λ A a tr, (tr, Ok a).
#[global] Instance Prog_bind : MBind Prog := λ A B k m tr,
  match m tr with
  | (tr', Ok a) => k a tr'
  | (tr', Err e) => (tr', Err e)
  end.

Definition pure_step {A} (r : result A) : Prog A := λ tr, (tr, r).
Definition raise {A} (e : Exn) : Prog A := pure_step (Err e).
Definition emit (ef : Effect) : Prog unit := λ tr, (tr ++ [ef], Ok ()).

(** The list comprehension that drops already coded outputs. *)
Definition candidates (env : Env) : list pystr :=
  List.filter (λ f, negb (startswith f (lit "coded_"))) (glob_csv env).

(** Input discovery, up to [csv_path = csv_files[0]]. *)
Definition discover (env : Env) : Prog pystr :=
  let csv_files := candidates env in
  if bool_decide (csv_files = []) then raise FileNotFoundError
  else if (1 <? length csv_files)%nat then raise RuntimeError
  else pure_step (list_getitem csv_files 0).

Definition script (env : Env) : Prog unit :=
  csv_path ← discover env;
  df ← pure_step (read_csv env csv_path);
  let file_name := csv_path in
  let cfg := select_config file_name in
  records ← pure_step (process cfg df);
  let out_name := lit "coded_results.csv" in
  _ ← emit (ToCsv out_name records);
  _ ← emit (PrintSaved out_name);
  emit (PrintHead (take 5 records)).

(** A run starts from the empty trace. *)
Definition run (env : Env) : list Effect * result unit := script env [].

(** ** Notions used to state the properties *)

Definition sumZ (l : list Z) : Z := foldr Z.add 0 l.

(** The flag the scoring loop emits for [col] on a row, if any: the
    loop body of [score_step] without the record and the running score. *)
Definition flag_of (cfg : GroupConfig) (df_columns : list pystr)
    (row : gmap pystr PyVal) (col : pystr) : option Z :=
  if bool_decide (col ∈ df_columns) then
    match row !! col with
    | Some cell =>
        let answer := strip (py_str cell) in
        if is_missing answer then None
        else
          match ANSWER_KEY cfg !! col with
          | Some key => Some (py_int_of_bool (bool_decide (answer = key)))
          | None => None
          end
    | None => None
    end
  else None.

(** The record after a scoring loop over [l]. *)
Definition put_flags (cfg : GroupConfig) (df_columns : list pystr)
    (row : gmap pystr PyVal) (rec : gmap pystr PyVal) (l : list pystr)
  : gmap pystr PyVal :=
  foldl (λ r c, match flag_of cfg df_columns row c with
                | Some f => <[c := PInt f]> r
                | None => r
                end) rec l.

(** The flag stored in an output record under [col], if there is one,
    and the flags a record holds for a list of columns. *)
Definition flag_in (rec : gmap pystr PyVal) (col : pystr) : option Z :=
  match rec !! col with
  | Some (PInt z) => Some z
  | _ => None
  end.

Definition emitted (rec : gmap pystr PyVal) (l : list pystr) : list Z :=
  omap (flag_in rec) l.

(** Number of columns of [l] present in the table. *)
Definition present (df_columns l : list pystr) : nat :=
  length (List.filter (λ c, bool_decide (c ∈ df_columns)) l).

(** Keys of an output record that are not per-question flags. *)
Definition fixed_keys : list pystr :=
  [lit "id"; lit "group"] ++ BG_COLS.*2 ++
  [lit "pre_score"; lit "post_score"; lit "gain"].

(** What the scoring code takes for granted about a configuration: no
    scored column is named like a fixed field, and each has an expected
    answer. *)
Definition cfg_ok (cfg : GroupConfig) : Prop :=
  Forall (λ c, (c ∉ fixed_keys) ∧ is_Some (ANSWER_KEY cfg !! c))
         (PRE_COLS cfg ++ POST_COLS cfg).

#[global] Instance cfg_ok_dec cfg : Decision (cfg_ok cfg).
Proof. unfold cfg_ok. apply _. Defined.

(** The record of a row as a function of the configuration, the index
    and the row alone. *)
Definition record_of (cfg : GroupConfig) (idx : Z) (row : gmap pystr PyVal)
  : gmap pystr PyVal :=
  match build_record cfg (elements (dom row)) idx row with
  | Ok rec => rec
  | Err _ => ∅
  end.

(** Shape of a finished record. *)
Definition record_spec (cfg : GroupConfig) (df_columns : list pystr)
    (row rec : gmap pystr PyVal) : Prop :=
  let pre := sumZ (omap (flag_of cfg df_columns row) (PRE_COLS cfg)) in
  let post := sumZ (omap (flag_of cfg df_columns row) (POST_COLS cfg)) in
  rec !! lit "pre_score" = Some (PInt pre) ∧
  rec !! lit "post_score" = Some (PInt post) ∧
  rec !! lit "gain" = Some (PInt (post - pre)) ∧
  ∀ col, col ∈ PRE_COLS cfg ++ POST_COLS cfg →
         rec !! col = (PInt <$> flag_of cfg df_columns row col).

(** The answer keys pair the questions by position: the [j]-th pre-test
    column and the [j]-th post-test column expect the same answer. *)
Definition paired (cfg : GroupConfig) : Prop :=
  Forall2 (λ p q, ANSWER_KEY cfg !! p = ANSWER_KEY cfg !! q)
          (PRE_COLS cfg) (POST_COLS cfg).

#[global] Instance paired_dec cfg : Decision (paired cfg).
Proof. unfold paired. apply _. Defined.

(** Every expected answer is a response the scoring loop can match: it
    carries no surrounding white space and is not a missing marker. *)
Definition answers_trimmed (cfg : GroupConfig) : Prop :=
  map_Forall (λ _ key, strip key = key ∧ is_missing key = false)
             (ANSWER_KEY cfg).

#[global] Instance answers_trimmed_dec cfg : Decision (answers_trimmed cfg).
Proof. unfold answers_trimmed. apply _. Defined.

(** ** Sample tables

    Scenario A: a VR export with one participant who answers Q16
    correctly, leaves Q17 blank, repeats the Q16 answer padded with
    spaces in Q87 and answers Q88 wrongly. *)
Definition scenario_A_columns : list pystr :=
  [lit "Q1"; lit "Q16"; lit "Q17"; lit "Q87"; lit "Q88"].

Definition scenario_A_row : gmap pystr PyVal :=
  dict_of
    [ (lit "Q1", PStr (lit "Yes"));
      (lit "Q16", PStr (lit "One entire pass over all training samples"));
      (lit "Q17", PNaN);
      (lit "Q87", PStr (lit "  One entire pass over all training samples "));
      (lit "Q88", PStr (lit "1 2 3 4 5 6")) ].

Definition scenario_A : DataFrame :=
  {| columns := scenario_A_columns; rows := [scenario_A_row] |}.

(** Scenario B: a Video export with one participant whose pre-test cells
    are the expected answers and whose post-test cells are empty. *)
Definition scenario_B_columns : list pystr := Video_PRE ++ Video_POST.

Definition scenario_B_row : gmap pystr PyVal :=
  dict_of
    (omap (λ col, (λ key, (col, PStr key)) <$> Video_ANSWER_KEY !! col) Video_PRE
     ++ List.map (λ col, (col, PNaN)) Video_POST).

Definition scenario_B : DataFrame :=
  {| columns := scenario_B_columns; rows := [scenario_B_row] |}.


Definition folder_A_again : Env :=
  {| glob_csv := [lit "VR_pilot.csv"; lit "coded_results.csv"];
     read_csv := λ _, Ok scenario_A |}.

(** ** Notions for the background fields and for unanswered columns *)

(** The record after one step of the background loop: [bg_step] without
    the exception of a row that lacks the column. *)
Definition bg_put (df_columns : list pystr) (row rec : gmap pystr PyVal)
    (item : pystr * pystr) : gmap pystr PyVal :=
  if bool_decide (item.1 ∈ df_columns) then
    match row !! item.1 with
    | Some cell => <[item.2 := cell]> rec
    | None => rec
    end
  else rec.

(** The participant answered [col]: the column is in the table and the
    trimmed text of the cell is not one of the missing markers. *)
Definition answered (df_columns : list pystr) (row : gmap pystr PyVal)
    (col : pystr) : bool :=
  bool_decide (col ∈ df_columns) &&
  match row !! col with
  | Some cell => negb (is_missing (strip (py_str cell)))
  | None => false
  end.

(** A configuration whose answer key lacks the second of its two
    pre-test columns, to exercise the lookup that no guard protects. *)
Definition CONFIG_without_Q17 : GroupConfig :=
  {| group := lit "VR";
     PRE_COLS := [lit "Q16"; lit "Q17"];
     POST_COLS := [];
     ANSWER_KEY :=
       dict_of [(lit "Q16", lit "One entire pass over all training samples")] |}.


(** * Properties *)

(** Membership in a list of literals, by evaluation. *)
Ltac elem_of_concrete :=
  apply list_elem_of_In; vm_compute;
  repeat (first [left; reflexivity | right]).

(** ** Strings *)

Lemma startswith_spec (p s : pystr) :
  startswith s p = true ↔ ∃ t, s = p ++ t.
Proof.
  revert s. induction p as [|a p IH]; intros s; simpl.
  - split; [intros _; by exists s | done].
  - destruct s as [|b s].
    + split; [done | intros [t Ht]; discriminate].
    + case_decide as Hab.
      * subst b. rewrite IH. split; intros [t Ht]; exists t; simpl in *; congruence.
      * split; [done | intros [t Ht]; simpl in Ht; congruence].
Qed.

Lemma py_contains_spec (sub s : pystr) :
  py_contains sub s = true ↔ ∃ a b, s = a ++ sub ++ b.
Proof.
  induction s as [|c s IH].
  - simpl. rewrite orb_false_r, startswith_spec. split.
    + intros [t Ht]. by exists [], t.
    + intros (a & b & H). symmetry in H.
      apply app_eq_nil in H as [-> H]. exists b. by rewrite H.
  - change (py_contains sub (c :: s))
      with (startswith (c :: s) sub || py_contains sub s).
    rewrite orb_true_iff, startswith_spec, IH. split.
    + intros [[t Ht] | (a & b & Hab)].
      * by exists [], t.
      * exists (c :: a), b. by rewrite Hab.
    + intros (a & b & Hab). destruct a as [|c' a].
      * left. by exists b.
      * right. simpl in Hab. exists a, b. congruence.
Qed.

(** ** The scoring loops *)

Lemma row_of_lookup cols row c :
  row_of cols row → c ∈ cols → is_Some (row !! c).
Proof.
  unfold row_of. intros Hd Hc. apply elem_of_dom. rewrite Hd.
  by apply elem_of_list_to_set.
Qed.

Lemma row_of_elements row : row_of (elements (dom row)) row.
Proof.
  unfold row_of. apply set_eq. intros c.
  by rewrite elem_of_list_to_set, elem_of_elements.
Qed.

Lemma row_of_same cols1 cols2 row c :
  row_of cols1 row → row_of cols2 row → c ∈ cols1 ↔ c ∈ cols2.
Proof.
  unfold row_of. intros H1 H2.
  rewrite <- (elem_of_list_to_set (C := gset pystr) c cols1).
  rewrite <- (elem_of_list_to_set (C := gset pystr) c cols2).
  by rewrite <- H1, <- H2.
Qed.

Lemma getitem_Some {V} (d : gmap pystr V) k v :
  d !! k = Some v → getitem d k = Ok v.
Proof. unfold getitem. by intros ->. Qed.

Section scoring.
Context (cfg : GroupConfig) (cols : list pystr) (row : gmap pystr PyVal).
Hypothesis Hrow : row_of cols row.

Local Abbreviation flag := (flag_of cfg cols row).
Local Abbreviation put := (put_flags cfg cols row).

Lemma score_step_flag rec s col :
  is_Some (ANSWER_KEY cfg !! col) →
  score_step cfg cols row (rec, PInt s) col =
  Ok (put rec [col], PInt (s + default 0 (flag col))).
Proof.
  intros [key Hkey]. unfold score_step, put_flags, flag_of. simpl.
  case_bool_decide as Hin.
  - destruct (row_of_lookup _ _ _ Hrow Hin) as [cell Hcell].
    rewrite (getitem_Some _ _ _ Hcell), Hcell. simpl.
    destruct (is_missing _); simpl.
    + by rewrite Z.add_0_r.
    + rewrite (getitem_Some _ _ _ Hkey), Hkey. simpl.
      by rewrite (getitem_Some _ _ _ (lookup_insert_eq _ _ _)).
  - simpl. by rewrite Z.add_0_r.
Qed.

Lemma sumZ_omap_cons col l :
  sumZ (omap flag (col :: l)) = default 0 (flag col) + sumZ (omap flag l).
Proof. simpl. by destruct (flag col). Qed.

Lemma score_loop l : ∀ rec s,
  Forall (λ c, is_Some (ANSWER_KEY cfg !! c)) l →
  for_each (score_step cfg cols row) l (rec, PInt s) =
  Ok (put rec l, PInt (s + sumZ (omap flag l))).
Proof.
  induction l as [|col l IH]; intros rec s Hl.
  - simpl. by rewrite Z.add_0_r.
  - apply Forall_cons in Hl as [Hcol Hl].
    change (for_each (score_step cfg cols row) (col :: l) (rec, PInt s))
      with (score_step cfg cols row (rec, PInt s) col ≫=
            for_each (score_step cfg cols row) l).
    rewrite (score_step_flag _ _ _ Hcol), sumZ_omap_cons. simpl.
    rewrite (IH _ _ Hl). do 3 f_equal. lia.
Qed.

Lemma put_flags_lookup l : ∀ rec k,
  put rec l !! k =
  match (if decide (k ∈ l) then flag k else None) with
  | Some f => Some (PInt f)
  | None => rec !! k
  end.
Proof.
  induction l as [|c l IH]; intros rec k.
  - rewrite decide_False by apply not_elem_of_nil. done.
  - change (put rec (c :: l)) with
      (put (match flag c with Some f => <[c := PInt f]> rec | None => rec end) l).
    rewrite IH. destruct (decide (k ∈ l)) as [Hl|Hl].
    + rewrite decide_True by (by right).
      destruct (flag k) as [f|] eqn:Hk; [done|].
      destruct (decide (c = k)) as [->|Hne]; [by rewrite Hk|].
      destruct (flag c); [by rewrite lookup_insert_ne|done].
    + destruct (decide (c = k)) as [->|Hne].
      * rewrite decide_True by left.
        destruct (flag k); [by rewrite lookup_insert_eq|done].
      * rewrite decide_False by (rewrite elem_of_cons; intros [?|?]; done).
        destruct (flag c); [by rewrite lookup_insert_ne|done].
Qed.

Lemma flag_range col f : flag col = Some f → 0 ≤ f ≤ 1 ∧ col ∈ cols.
Proof.
  unfold flag_of. case_bool_decide; [|done].
  destruct (row !! col); [|done]. simpl.
  destruct (is_missing _); [done|].
  destruct (ANSWER_KEY cfg !! col); [|done].
  intros [= <-]. split; [|done]. unfold py_int_of_bool.
  case_bool_decide; lia.
Qed.

Lemma score_bounds l :
  0 ≤ sumZ (omap flag l) ≤ Z.of_nat (present cols l).
Proof.
  unfold present. induction l as [|c l IH]; [simpl; lia|].
  rewrite sumZ_omap_cons. simpl.
  destruct (flag c) as [f|] eqn:Hf; simpl.
  - apply flag_range in Hf as [Hf Hin].
    rewrite bool_decide_eq_true_2 by done. simpl length. lia.
  - case_bool_decide; simpl length; lia.
Qed.

Lemma bg_step_ok rec col newname :
  ∃ rec', bg_step cols row rec (col, newname) = Ok rec' ∧
          ∀ k, k ≠ newname → rec' !! k = rec !! k.
Proof.
  unfold bg_step. case_bool_decide as Hin.
  - destruct (row_of_lookup _ _ _ Hrow Hin) as [cell Hcell].
    rewrite (getitem_Some _ _ _ Hcell). simpl.
    eexists. split; [done|]. intros k Hk. by rewrite lookup_insert_ne.
  - by exists rec.
Qed.

Lemma bg_loop l : ∀ rec,
  ∃ rec', for_each (bg_step cols row) l rec = Ok rec' ∧
          ∀ k, k ∉ l.*2 → rec' !! k = rec !! k.
Proof.
  induction l as [|[col newname] l IH]; intros rec.
  - by exists rec.
  - change (for_each (bg_step cols row) ((col, newname) :: l) rec)
      with (bg_step cols row rec (col, newname) ≫=
            for_each (bg_step cols row) l).
    destruct (bg_step_ok rec col newname) as (rec1 & -> & Hrec1).
    destruct (IH rec1) as (rec' & Hloop & Hrec').
    exists rec'. split; [done|]. intros k Hk.
    rewrite fmap_cons, not_elem_of_cons in Hk. destruct Hk as [Hk1 Hk2].
    rewrite (Hrec' _ Hk2). by apply Hrec1.
Qed.
End scoring.

(** ** One record *)

Lemma cfg_ok_scored cfg col :
  cfg_ok cfg → col ∈ PRE_COLS cfg ++ POST_COLS cfg →
  (col ∉ fixed_keys) ∧ is_Some (ANSWER_KEY cfg !! col).
Proof. unfold cfg_ok. rewrite Forall_forall. auto. Qed.

Lemma cfg_ok_fixed cfg k :
  cfg_ok cfg → k ∈ fixed_keys → k ∉ PRE_COLS cfg ++ POST_COLS cfg.
Proof. intros Hok Hk Hin. by destruct (cfg_ok_scored _ _ Hok Hin). Qed.

Lemma cfg_ok_keys cfg l :
  cfg_ok cfg → l ⊆ PRE_COLS cfg ++ POST_COLS cfg →
  Forall (λ c, is_Some (ANSWER_KEY cfg !! c)) l.
Proof.
  intros Hok Hl. apply Forall_forall. intros c Hc.
  by destruct (cfg_ok_scored _ _ Hok (Hl _ Hc)).
Qed.

Lemma fixed_keys_elem k :
  k ∈ fixed_keys ↔
  k ∈ [lit "id"; lit "group"; lit "cs_background"; lit "nn_course";
       lit "derivative_familiarity"; lit "pre_score"; lit "post_score";
       lit "gain"].
Proof. done. Qed.

Lemma build_record_ok cfg cols idx row :
  row_of cols row → cfg_ok cfg →
  ∃ rec, build_record cfg cols idx row = Ok rec ∧ record_spec cfg cols row rec.
Proof.
  intros Hrow Hok.
  assert (Hpre : lit "pre_score" ∉ PRE_COLS cfg ++ POST_COLS cfg).
  { apply (cfg_ok_fixed _ _ Hok), fixed_keys_elem. set_solver. }
  assert (Hpost : lit "post_score" ∉ PRE_COLS cfg ++ POST_COLS cfg).
  { apply (cfg_ok_fixed _ _ Hok), fixed_keys_elem. set_solver. }
  assert (Hgain : lit "gain" ∉ PRE_COLS cfg ++ POST_COLS cfg).
  { apply (cfg_ok_fixed _ _ Hok), fixed_keys_elem. set_solver. }
  unfold build_record.
  destruct (bg_loop cols row Hrow BG_COLS
              (dict_of [(lit "id", PInt idx); (lit "group", PStr (group cfg))]))
    as (rec0 & -> & Hrec0).
  cbn [mbind result_bind].
  rewrite (score_loop cfg cols row Hrow)
    by (apply (cfg_ok_keys _ _ Hok); set_solver).
  cbn [mbind result_bind].
  rewrite (score_loop cfg cols row Hrow)
    by (apply (cfg_ok_keys _ _ Hok); set_solver).
  cbn [mbind result_bind]. rewrite !Z.add_0_l.
  set (pre := sumZ (omap (flag_of cfg cols row) (PRE_COLS cfg))).
  set (post := sumZ (omap (flag_of cfg cols row) (POST_COLS cfg))).
  set (rec1 := put_flags cfg cols row rec0 (PRE_COLS cfg)).
  set (rec2 := put_flags cfg cols row (<[lit "pre_score" := PInt pre]> rec1)
                 (POST_COLS cfg)).
  assert (Hpre2 : rec2 !! lit "pre_score" = Some (PInt pre)).
  { unfold rec2. rewrite put_flags_lookup.
    rewrite decide_False by set_solver. by rewrite lookup_insert_eq. }
  rewrite (getitem_Some _ _ _ (lookup_insert_eq _ _ _)).
  cbn [mbind result_bind].
  erewrite getitem_Some by (rewrite lookup_insert_ne by done; exact Hpre2).
  cbn [mbind result_bind]. unfold py_sub. simpl.
  eexists. split; [reflexivity|].
  unfold record_spec. fold pre post. repeat split.
  - rewrite !lookup_insert_ne by done. exact Hpre2.
  - rewrite lookup_insert_ne by done. by rewrite lookup_insert_eq.
  - by rewrite lookup_insert_eq.
  - intros col Hcol.
    destruct (cfg_ok_scored _ _ Hok Hcol) as [Hfix _].
    rewrite fixed_keys_elem in Hfix.
    rewrite !lookup_insert_ne by set_solver.
    unfold rec2. rewrite put_flags_lookup.
    assert (Hin0 : rec0 !! col = None).
    { rewrite Hrec0 by set_solver.
      unfold dict_of. simpl. by rewrite !lookup_insert_ne by set_solver. }
    assert (Hin1 : (<[lit "pre_score" := PInt pre]> rec1) !! col =
                   if decide (col ∈ PRE_COLS cfg)
                   then PInt <$> flag_of cfg cols row col else None).
    { rewrite lookup_insert_ne by set_solver.
      unfold rec1. rewrite put_flags_lookup.
      case_decide; [|done]. by destruct (flag_of cfg cols row col). }
    rewrite Hin1. apply elem_of_app in Hcol.
    destruct (flag_of cfg cols row col); repeat case_decide; naive_solver.
Qed.

Lemma for_each_ext {A S} (f g : S → A → result S) l :
  (∀ st x, f st x = g st x) → ∀ st, for_each f l st = for_each g l st.
Proof.
  intros Hfg. induction l as [|x l IH]; intros st; [done|].
  simpl. rewrite Hfg. destruct (g st x); simpl; auto.
Qed.

(** The record depends on [df.columns] only through membership. *)
Lemma build_record_ext cfg cols1 cols2 idx row :
  (∀ c, c ∈ cols1 ↔ c ∈ cols2) →
  build_record cfg cols1 idx row = build_record cfg cols2 idx row.
Proof.
  intros Hcols.
  assert (Hdec : ∀ c, bool_decide (c ∈ cols1) = bool_decide (c ∈ cols2))
    by (intros c; apply bool_decide_ext, Hcols).
  assert (Hbg : ∀ rec item, bg_step cols1 row rec item = bg_step cols2 row rec item).
  { intros rec [col newname]. unfold bg_step. by rewrite Hdec. }
  assert (Hsc : ∀ st col,
             score_step cfg cols1 row st col = score_step cfg cols2 row st col).
  { intros [rec score] col. unfold score_step. by rewrite Hdec. }
  unfold build_record.
  rewrite (for_each_ext _ _ BG_COLS Hbg).
  destruct (for_each (bg_step cols2 row) BG_COLS _) as [rec0|]; [|done].
  cbn [mbind result_bind].
  rewrite (for_each_ext _ _ (PRE_COLS cfg) Hsc).
  destruct (for_each (score_step cfg cols2 row) (PRE_COLS cfg) _)
    as [[rec1 pre]|]; [|done].
  cbn [mbind result_bind].
  by rewrite (for_each_ext _ _ (POST_COLS cfg) Hsc).
Qed.

Lemma build_record_of cfg cols idx row :
  row_of cols row → cfg_ok cfg →
  build_record cfg cols idx row = Ok (record_of cfg idx row) ∧
  record_spec cfg cols row (record_of cfg idx row).
Proof.
  intros Hrow Hok.
  destruct (build_record_ok cfg cols idx row Hrow Hok) as (rec & Hrec & Hspec).
  assert (record_of cfg idx row = rec) as ->; [|done].
  unfold record_of.
  rewrite (build_record_ext cfg _ cols idx row); [by rewrite Hrec|].
  intros c. apply (row_of_same _ _ row); [apply row_of_elements | done].
Qed.

(** ** The participant loop *)

Lemma process_loop (build : nat → gmap pystr PyVal → result (gmap pystr PyVal))
    (g : nat → gmap pystr PyVal → gmap pystr PyVal) l :
  ∀ k acc,
    (∀ i row, l !! i = Some row → build (k + i)%nat row = Ok (g (k + i)%nat row)) →
    for_each (λ records '(idx, row), rec ← build idx row; Ok (records ++ [rec]))
             (imap (λ i row, ((k + i)%nat, row)) l) acc
    = Ok (acc ++ imap (λ i, g (k + i)%nat) l).
Proof.
  induction l as [|row l IH]; intros k acc Hb.
  - simpl. by rewrite app_nil_r.
  - rewrite !imap_cons. simpl for_each.
    rewrite Nat.add_0_r, <- (Nat.add_0_r k) at 1.
    rewrite (Hb 0%nat row eq_refl). cbn [mbind result_bind].
    rewrite (imap_ext _ (λ i row, ((S k + i)%nat, row)) l)
      by (intros; simpl; f_equal; lia).
    rewrite (IH (S k)).
    + rewrite <- app_assoc. simpl. do 3 f_equal.
      apply imap_ext. intros; simpl. f_equal. lia.
    + intros i r Hi. replace (S k + i)%nat with (k + S i)%nat by lia.
      by apply Hb.
Qed.

Lemma process_ok cfg df :
  well_formed df → cfg_ok cfg →
  process cfg df =
  Ok (imap (λ i row, record_of cfg (Z.of_nat i) row) (rows df)).
Proof.
  intros Hwf Hok. unfold process.
  apply (process_loop (λ i, build_record cfg (columns df) (Z.of_nat i))
           (λ i, record_of cfg (Z.of_nat i)) (rows df) 0 []).
  intros i row Hi. simpl.
  apply build_record_of; [|done].
  unfold well_formed in Hwf. rewrite Forall_lookup in Hwf. eauto.
Qed.

(** Every run on a rectangular table with a sound configuration yields
    one record per row, each finished as [record_spec] says. *)
Lemma process_records cfg df :
  well_formed df → cfg_ok cfg →
  ∃ recs, process cfg df = Ok recs ∧ length recs = length (rows df) ∧
    ∀ i row rec, rows df !! i = Some row → recs !! i = Some rec →
      row_of (columns df) row ∧
      build_record cfg (columns df) (Z.of_nat i) row = Ok rec ∧
      record_spec cfg (columns df) row rec.
Proof.
  intros Hwf Hok. eexists. split; [by apply process_ok|].
  split; [by rewrite length_imap|].
  intros i row rec Hi Hrec.
  rewrite list_lookup_imap, Hi in Hrec. simpl in Hrec.
  injection Hrec as <-.
  assert (Hrow : row_of (columns df) row).
  { unfold well_formed in Hwf. rewrite Forall_lookup in Hwf. eauto. }
  split; [done|]. by apply build_record_of.
Qed.

(** ** The two shipped configurations *)

Lemma VR_CONFIG_ok : cfg_ok VR_CONFIG.
Proof. apply (bool_decide_unpack (cfg_ok VR_CONFIG)). by vm_compute. Qed.

Lemma Video_CONFIG_ok : cfg_ok Video_CONFIG.
Proof. apply (bool_decide_unpack (cfg_ok Video_CONFIG)). by vm_compute. Qed.

Lemma select_config_cases file_name :
  select_config file_name = VR_CONFIG ∨ select_config file_name = Video_CONFIG.
Proof. unfold select_config. destruct (py_contains _ _); auto. Qed.

Lemma select_config_ok file_name : cfg_ok (select_config file_name).
Proof.
  destruct (select_config_cases file_name) as [-> | ->];
    [apply VR_CONFIG_ok | apply Video_CONFIG_ok].
Qed.

(** ** Flags and scores of the output records *)

Lemma emitted_flags cfg cols row rec l :
  (∀ col, col ∈ l → rec !! col = (PInt <$> flag_of cfg cols row col)) →
  emitted rec l = omap (flag_of cfg cols row) l.
Proof.
  intros Hl. unfold emitted. induction l as [|c l IH]; [done|].
  assert (IH' := IH (λ col Hcol, Hl col (list_elem_of_further _ _ _ Hcol))).
  assert (Hc : flag_in rec c = flag_of cfg cols row c).
  { unfold flag_in. rewrite (Hl c) by left.
    by destruct (flag_of cfg cols row c). }
  unfold omap in *. simpl. by rewrite Hc, IH'.
Qed.

Lemma record_spec_emitted cfg cols row rec :
  record_spec cfg cols row rec →
  emitted rec (PRE_COLS cfg) = omap (flag_of cfg cols row) (PRE_COLS cfg) ∧
  emitted rec (POST_COLS cfg) = omap (flag_of cfg cols row) (POST_COLS cfg).
Proof.
  intros (_ & _ & _ & Hflags).
  split; apply emitted_flags; intros col Hcol; apply Hflags; set_solver.
Qed.

Lemma flag_of_answered cfg cols row col cell :
  col ∈ cols → row !! col = Some cell →
  is_missing (strip (py_str cell)) = false →
  flag_of cfg cols row col =
  (λ key, if decide (strip (py_str cell) = key) then 1 else 0)
    <$> ANSWER_KEY cfg !! col.
Proof.
  intros Hin Hcell Hmiss. unfold flag_of.
  rewrite bool_decide_eq_true_2, Hcell by done. simpl. rewrite Hmiss.
  destruct (ANSWER_KEY cfg !! col); [|done]. simpl.
  unfold py_int_of_bool. by case_bool_decide; case_decide.
Qed.

Lemma flag_of_missing cfg cols row col :
  col ∉ cols ∨ (∃ cell, row !! col = Some cell ∧
                        is_missing (strip (py_str cell)) = true) →
  flag_of cfg cols row col = None.
Proof.
  unfold flag_of. intros [Hout | (cell & Hcell & Hmiss)].
  - by rewrite bool_decide_eq_false_2.
  - rewrite Hcell. simpl. rewrite Hmiss. by case_bool_decide.
Qed.

(** C1: for every row and every scored column present in the table whose
    trimmed cell text is neither empty nor nan/NaN, the record holds a
    flag for that column, 1 exactly when the trimmed text equals the
    expected answer and 0 otherwise; and each phase score is the sum of
    the flags the record holds for that phase's column list. *)
Theorem C1_flags_and_phase_scores (file_name : pystr) (df : DataFrame) :
  well_formed df →
  let cfg := select_config file_name in
  ∃ recs, process cfg df = Ok recs ∧ length recs = length (rows df) ∧
    ∀ i row rec, rows df !! i = Some row → recs !! i = Some rec →
      (∀ col cell,
         col ∈ PRE_COLS cfg ++ POST_COLS cfg → col ∈ columns df →
         row !! col = Some cell →
         is_missing (strip (py_str cell)) = false →
         ∃ key, ANSWER_KEY cfg !! col = Some key ∧
                rec !! col =
                Some (PInt (if decide (strip (py_str cell) = key) then 1 else 0))) ∧
      rec !! lit "pre_score" = Some (PInt (sumZ (emitted rec (PRE_COLS cfg)))) ∧
      rec !! lit "post_score" = Some (PInt (sumZ (emitted rec (POST_COLS cfg)))).
Proof.
  intros Hwf cfg.
  destruct (process_records cfg df Hwf (select_config_ok file_name))
    as (recs & Hproc & Hlen & Hrecs).
  exists recs. split; [done|]. split; [done|].
  intros i row rec Hi Hrec.
  destruct (Hrecs i row rec Hi Hrec) as (Hrow & _ & Hspec).
  destruct (record_spec_emitted _ _ _ _ Hspec) as [-> ->].
  destruct Hspec as (Hpre & Hpost & _ & Hflags).
  split; [|done].
  intros col cell Hcol Hin Hcell Hmiss.
  destruct (cfg_ok_scored _ _ (select_config_ok file_name) Hcol)
    as [_ [key Hkey]].
  exists key. split; [done|].
  rewrite (Hflags col Hcol), (flag_of_answered _ _ _ _ cell) by done.
  subst cfg. by rewrite Hkey.
Qed.

(** C2: in every record the gain field is the post_score field minus the
    pre_score field. *)
Theorem C2_gain_is_difference (file_name : pystr) (df : DataFrame) :
  well_formed df →
  ∃ recs, process (select_config file_name) df = Ok recs ∧
    length recs = length (rows df) ∧
    ∀ rec, rec ∈ recs →
      ∃ pre post : Z,
        rec !! lit "pre_score" = Some (PInt pre) ∧
        rec !! lit "post_score" = Some (PInt post) ∧
        rec !! lit "gain" = Some (PInt (post - pre)).
Proof.
  intros Hwf.
  destruct (process_records _ df Hwf (select_config_ok file_name))
    as (recs & Hproc & Hlen & Hrecs).
  exists recs. split; [done|]. split; [done|].
  intros rec [i Hrec]%list_elem_of_lookup.
  destruct (lookup_lt_is_Some_2 (rows df) i) as [row Hi].
  { rewrite <- Hlen. by eapply lookup_lt_Some. }
  destruct (Hrecs i row rec Hi Hrec) as (_ & _ & Hpre & Hpost & Hgain & _).
  eauto.
Qed.

(** C3: for every row, pre_score and post_score are integers between 0
    and the number of that phase's columns present in the table. *)
Theorem C3_score_bounds (file_name : pystr) (df : DataFrame) :
  well_formed df →
  let cfg := select_config file_name in
  ∃ recs, process cfg df = Ok recs ∧ length recs = length (rows df) ∧
    ∀ rec, rec ∈ recs →
      ∃ pre post : Z,
        rec !! lit "pre_score" = Some (PInt pre) ∧
        rec !! lit "post_score" = Some (PInt post) ∧
        0 ≤ pre ≤ Z.of_nat (present (columns df) (PRE_COLS cfg)) ∧
        0 ≤ post ≤ Z.of_nat (present (columns df) (POST_COLS cfg)).
Proof.
  intros Hwf cfg.
  destruct (process_records cfg df Hwf (select_config_ok file_name))
    as (recs & Hproc & Hlen & Hrecs).
  exists recs. split; [done|]. split; [done|].
  intros rec [i Hrec]%list_elem_of_lookup.
  destruct (lookup_lt_is_Some_2 (rows df) i) as [row Hi].
  { rewrite <- Hlen. by eapply lookup_lt_Some. }
  destruct (Hrecs i row rec Hi Hrec) as (_ & _ & Hpre & Hpost & _).
  eexists _, _. split; [exact Hpre|]. split; [exact Hpost|].
  split; apply score_bounds.
Qed.

Lemma omap_pointwise {A B} (f g : A → option B) (l : list A) :
  (∀ x, x ∈ l → f x = g x) → omap f l = omap g l.
Proof.
  unfold omap. induction l as [|x l IH]; intros Hfg; [done|].
  simpl. rewrite (Hfg x) by left. rewrite IH; [done|].
  intros y Hy. apply Hfg. by right.
Qed.

Lemma omap_without {A B} `{EqDecision A} (f : A → option B) (a : A) (l : list A) :
  f a = None → omap f (filter (λ x, x ≠ a) l) = omap f l.
Proof.
  intros Ha. induction l as [|x l IH]; [done|].
  rewrite filter_cons. unfold omap in *. destruct (decide (x ≠ a)) as [Hx|Hx].
  - simpl. by rewrite IH.
  - apply dec_stable in Hx as ->. simpl. by rewrite Ha.
Qed.

(** Dropping a column from the table leaves the other columns' flags
    alone, and a column that emits no flag is not missed. *)
Lemma flag_of_drop cfg cols row col c :
  flag_of cfg cols row col = None →
  flag_of cfg (filter (λ x, x ≠ col) cols) (delete col row) c =
  flag_of cfg cols row c.
Proof.
  intros Hcol. destruct (decide (c = col)) as [->|Hne].
  - rewrite Hcol. unfold flag_of. rewrite bool_decide_eq_false_2; [done|].
    rewrite list_elem_of_filter. naive_solver.
  - unfold flag_of. rewrite lookup_delete_ne by done.
    erewrite bool_decide_ext; [done|].
    rewrite list_elem_of_filter. naive_solver.
Qed.

Lemma row_of_drop cols row col :
  row_of cols row → row_of (filter (λ x, x ≠ col) cols) (delete col row).
Proof.
  unfold row_of. intros Hrow. rewrite dom_delete_L, Hrow.
  apply set_eq. intros c.
  rewrite elem_of_difference, !elem_of_list_to_set, list_elem_of_filter.
  set_solver.
Qed.

(** C4: when a scored column is absent from the table, or its cell text
    after trimming is empty or nan/NaN, the row's record has no flag
    field for that column and the cell adds nothing to either score:
    each score is the sum of the flags of the other columns, and is what
    the same row scores in the table without that column. *)
Theorem C4_missing_answer_is_neutral (file_name : pystr) (df : DataFrame) :
  well_formed df →
  let cfg := select_config file_name in
  ∃ recs, process cfg df = Ok recs ∧ length recs = length (rows df) ∧
    ∀ i row rec col,
      rows df !! i = Some row → recs !! i = Some rec →
      col ∈ PRE_COLS cfg ++ POST_COLS cfg →
      (col ∉ columns df ∨
       ∃ cell, row !! col = Some cell ∧
               is_missing (strip (py_str cell)) = true) →
      rec !! col = None ∧
      rec !! lit "pre_score" =
        Some (PInt (sumZ (emitted rec (filter (λ c, c ≠ col) (PRE_COLS cfg))))) ∧
      rec !! lit "post_score" =
        Some (PInt (sumZ (emitted rec (filter (λ c, c ≠ col) (POST_COLS cfg))))) ∧
      ∃ rec', build_record cfg (filter (λ c, c ≠ col) (columns df))
                (Z.of_nat i) (delete col row) = Ok rec' ∧
              rec' !! lit "pre_score" = rec !! lit "pre_score" ∧
              rec' !! lit "post_score" = rec !! lit "post_score".
Proof.
  intros Hwf cfg.
  destruct (process_records cfg df Hwf (select_config_ok file_name))
    as (recs & Hproc & Hlen & Hrecs).
  exists recs. split; [done|]. split; [done|].
  intros i row rec col Hi Hrec Hcol Hmiss.
  destruct (Hrecs i row rec Hi Hrec) as (Hrow & _ & Hspec).
  apply (flag_of_missing cfg) in Hmiss.
  destruct Hspec as (Hpre & Hpost & _ & Hflags).
  split; [by rewrite (Hflags col Hcol), Hmiss|].
  split; [|split].
  - rewrite (emitted_flags cfg (columns df) row).
    + by rewrite omap_without.
    + intros c [_ Hc]%list_elem_of_filter.
      apply Hflags, elem_of_app. by left.
  - rewrite (emitted_flags cfg (columns df) row).
    + by rewrite omap_without.
    + intros c [_ Hc]%list_elem_of_filter.
      apply Hflags, elem_of_app. by right.
  - destruct (build_record_ok cfg _ (Z.of_nat i) _
                (row_of_drop _ _ col Hrow) (select_config_ok file_name))
      as (rec' & Hrec' & Hpre' & Hpost' & _).
    exists rec'. split; [done|].
    rewrite Hpre, Hpost, Hpre', Hpost'.
    split; do 3 f_equal; apply omap_pointwise; intros c _;
      by apply flag_of_drop.
Qed.

(** ** Group classification *)

Lemma select_config_VR file_name :
  (∃ a b, file_name = a ++ lit "VR" ++ b) → select_config file_name = VR_CONFIG.
Proof.
  intros H. apply py_contains_spec in H. unfold select_config. by rewrite H.
Qed.

Lemma select_config_Video file_name :
  (¬ ∃ a b, file_name = a ++ lit "VR" ++ b) →
  select_config file_name = Video_CONFIG.
Proof.
  intros H. unfold select_config.
  destruct (py_contains (lit "VR") file_name) eqn:Hc; [|done].
  by apply py_contains_spec in Hc.
Qed.

(** C5: the group is decided by the file name alone: a name in which the
    two characters VR occur (upper case, adjacent) selects the VR
    configuration, every other name selects the Video configuration. *)
Theorem C5_group_from_file_name (file_name : pystr) :
  ((∃ a b, file_name = a ++ lit "VR" ++ b) →
   select_config file_name = VR_CONFIG) ∧
  ((¬ ∃ a b, file_name = a ++ lit "VR" ++ b) →
   select_config file_name = Video_CONFIG).
Proof. split; [apply select_config_VR | apply select_config_Video]. Qed.

Lemma C5_group_from_file_name_witness :
  select_config (lit "VR_pilot.csv") = VR_CONFIG ∧
  select_config (lit "my_VR.csv") = VR_CONFIG ∧
  select_config (lit "Video_pilot.csv") = Video_CONFIG ∧
  select_config (lit "vr_pilot.csv") = Video_CONFIG.
Proof.
  split; [|split; [|split]].
  - apply (proj1 (C5_group_from_file_name (lit "VR_pilot.csv"))).
    by exists [], (lit "_pilot.csv").
  - apply (proj1 (C5_group_from_file_name (lit "my_VR.csv"))).
    by exists (lit "my_"), (lit ".csv").
  - apply (proj2 (C5_group_from_file_name (lit "Video_pilot.csv"))).
    intros H. apply py_contains_spec in H. vm_compute in H. discriminate H.
  - apply (proj2 (C5_group_from_file_name (lit "vr_pilot.csv"))).
    intros H. apply py_contains_spec in H. vm_compute in H. discriminate H.
Defined.

(** ** Input discovery *)

Lemma candidates_spec env f :
  f ∈ candidates env ↔
  f ∈ glob_csv env ∧ ¬ ∃ t, f = lit "coded_" ++ t.
Proof.
  unfold candidates. rewrite list_elem_of_In, filter_In, <- list_elem_of_In.
  rewrite negb_true_iff, <- not_true_iff_false, startswith_spec. done.
Qed.

Lemma run_no_candidate env :
  candidates env = [] → run env = ([], Err FileNotFoundError).
Proof. unfold run, script, discover. by intros ->. Qed.

Lemma run_many_candidates env :
  (1 < length (candidates env))%nat → run env = ([], Err RuntimeError).
Proof.
  unfold run, script, discover. intros Hlen.
  destruct (candidates env) as [|c [|c' l]]; simpl in Hlen; [lia | lia | done].
Qed.

Lemma discover_one env c :
  candidates env = [c] → discover env [] = ([], Ok c).
Proof. unfold discover. by intros ->. Qed.

(** C6: among the CSV files of the script folder whose names do not
    start with coded_, none left makes the run raise FileNotFoundError
    (the spec's InputNotFoundError) and more than one makes it raise
    RuntimeError (AmbiguousInputError), in both cases with nothing
    written or printed; a run that writes, prints or returns had exactly
    one candidate, which is the file discovery hands on. *)
Theorem C6_input_discovery (env : Env) :
  (∀ f, f ∈ candidates env ↔
        f ∈ glob_csv env ∧ ¬ ∃ t, f = lit "coded_" ++ t) ∧
  (candidates env = [] → run env = ([], Err FileNotFoundError)) ∧
  ((1 < length (candidates env))%nat → run env = ([], Err RuntimeError)) ∧
  (∀ tr r, run env = (tr, r) → tr ≠ [] ∨ r = Ok () →
           length (candidates env) = 1%nat) ∧
  (∀ c, candidates env = [c] → discover env [] = ([], Ok c)).
Proof.
  split; [apply candidates_spec|].
  split; [apply run_no_candidate|].
  split; [apply run_many_candidates|].
  split; [|apply discover_one].
  intros tr r Hrun Hobs.
  destruct (candidates env) as [|c [|c' l]] eqn:Hc; [| done |].
  - rewrite (run_no_candidate env Hc) in Hrun.
    injection Hrun as <- <-. by destruct Hobs.
  - rewrite (run_many_candidates env) in Hrun by (rewrite Hc; simpl; lia).
    injection Hrun as <- <-. by destruct Hobs.
Qed.

Lemma C6_input_discovery_witness :
  run {| glob_csv := [lit "coded_results.csv"];
         read_csv := λ _, Ok scenario_A |} = ([], Err FileNotFoundError) ∧
  run {| glob_csv := [lit "VR_pilot.csv"; lit "Video_pilot.csv"];
         read_csv := λ _, Ok scenario_A |} = ([], Err RuntimeError) ∧
  length (candidates folder_A_again) = 1%nat ∧
  discover folder_A_again [] = ([], Ok (lit "VR_pilot.csv")).
Proof.
  split; [|split; [|split]].
  - apply (C6_input_discovery
             {| glob_csv := [lit "coded_results.csv"];
                read_csv := λ _, Ok scenario_A |}).
    reflexivity.
  - apply (C6_input_discovery
             {| glob_csv := [lit "VR_pilot.csv"; lit "Video_pilot.csv"];
                read_csv := λ _, Ok scenario_A |}).
    vm_compute. reflexivity.
  - apply (proj1 (proj2 (proj2 (proj2 (C6_input_discovery folder_A_again))))
             (run folder_A_again).1 (run folder_A_again).2).
    + by destruct (run folder_A_again).
    + right. by vm_compute.
  - apply (C6_input_discovery folder_A_again). reflexivity.
Defined.

(** ** The answer keys *)

Lemma VR_paired : paired VR_CONFIG.
Proof. apply (bool_decide_unpack (paired VR_CONFIG)). by vm_compute. Qed.

Lemma Video_paired : paired Video_CONFIG.
Proof. apply (bool_decide_unpack (paired Video_CONFIG)). by vm_compute. Qed.

Lemma select_config_paired file_name : paired (select_config file_name).
Proof.
  destruct (select_config_cases file_name) as [-> | ->];
    [apply VR_paired | apply Video_paired].
Qed.

Lemma Video_answers_trimmed : answers_trimmed Video_CONFIG.
Proof.
  apply (bool_decide_unpack (answers_trimmed Video_CONFIG)). by vm_compute.
Qed.

(** C9: in both configurations every pre-test and post-test column has
    an entry in the answer key, so the lookup ANSWER_KEY[col] of the
    scoring loops succeeds, a scoring step on a cell the row holds
    returns, and a run over a rectangular table raises nothing. *)
Theorem C9_answer_key_covers_columns (file_name : pystr) :
  let cfg := select_config file_name in
  (∀ col, col ∈ PRE_COLS cfg ++ POST_COLS cfg →
          ∃ key, getitem (ANSWER_KEY cfg) col = Ok key) ∧
  (∀ cols row rec (s : Z) col,
     col ∈ PRE_COLS cfg ++ POST_COLS cfg → row_of cols row →
     ∃ st, score_step cfg cols row (rec, PInt s) col = Ok st) ∧
  (∀ df, well_formed df → ∃ recs, process cfg df = Ok recs).
Proof.
  intros cfg. split; [|split].
  - intros col Hcol.
    destruct (cfg_ok_scored _ _ (select_config_ok file_name) Hcol)
      as [_ [key Hkey]].
    exists key. by apply getitem_Some.
  - intros cols row rec s col Hcol Hrow.
    destruct (cfg_ok_scored _ _ (select_config_ok file_name) Hcol)
      as [_ Hkey].
    eexists. by apply score_step_flag.
  - intros df Hwf.
    destruct (process_records cfg df Hwf (select_config_ok file_name))
      as (recs & Hproc & _).
    by exists recs.
Qed.

Lemma C9_answer_key_covers_columns_witness :
  (∃ key, getitem VR_ANSWER_KEY (lit "Q27") = Ok key) ∧
  (∃ st, score_step VR_CONFIG scenario_A_columns scenario_A_row
           (∅, PInt 0) (lit "Q87") = Ok st) ∧
  (∃ recs, process VR_CONFIG scenario_A = Ok recs).
Proof.
  split; [|split].
  - apply (C9_answer_key_covers_columns (lit "VR_pilot.csv")).
    elem_of_concrete.
  - apply (C9_answer_key_covers_columns (lit "VR_pilot.csv")).
    + elem_of_concrete.
    + by vm_compute.
  - apply (C9_answer_key_covers_columns (lit "VR_pilot.csv")).
    by repeat constructor.
Defined.

(** C10: in both configurations the pre-test and post-test lists have
    the same length and the columns at the same position expect the same
    answer; so a row that gives the same trimmed, non-blank answer to two
    paired questions present in the table gets the same flag for both. *)
Theorem C10_paired_questions (file_name : pystr) :
  let cfg := select_config file_name in
  length (PRE_COLS cfg) = length (POST_COLS cfg) ∧
  (∀ j p q, PRE_COLS cfg !! j = Some p → POST_COLS cfg !! j = Some q →
            ∃ key, ANSWER_KEY cfg !! p = Some key ∧
                   ANSWER_KEY cfg !! q = Some key) ∧
  (∀ df, well_formed df →
     ∃ recs, process cfg df = Ok recs ∧ length recs = length (rows df) ∧
       ∀ i row rec j p q cp cq,
         rows df !! i = Some row → recs !! i = Some rec →
         PRE_COLS cfg !! j = Some p → POST_COLS cfg !! j = Some q →
         p ∈ columns df → q ∈ columns df →
         row !! p = Some cp → row !! q = Some cq →
         strip (py_str cp) = strip (py_str cq) →
         is_missing (strip (py_str cp)) = false →
         ∃ f : Z, rec !! p = Some (PInt f) ∧ rec !! q = Some (PInt f)).
Proof.
  intros cfg.
  assert (Hpair : ∀ j p q,
             PRE_COLS cfg !! j = Some p → POST_COLS cfg !! j = Some q →
             ∃ key, ANSWER_KEY cfg !! p = Some key ∧
                    ANSWER_KEY cfg !! q = Some key).
  { intros j p q Hp Hq.
    assert (Hin : p ∈ PRE_COLS cfg ++ POST_COLS cfg).
    { apply elem_of_app. left. by eapply list_elem_of_lookup_2. }
    destruct (cfg_ok_scored _ _ (select_config_ok file_name) Hin)
      as [_ [key Hkey]].
    exists key. split; [done|].
    rewrite <- Hkey. symmetry.
    apply (Forall2_lookup_lr _ _ _ j p q (select_config_paired file_name) Hp Hq). }
  split; [apply (Forall2_length _ _ _ (select_config_paired file_name))|].
  split; [exact Hpair|].
  intros df Hwf.
  destruct (process_records cfg df Hwf (select_config_ok file_name))
    as (recs & Hproc & Hlen & Hrecs).
  exists recs. split; [done|]. split; [done|].
  intros i row rec j p q cp cq Hi Hrec Hp Hq Hpin Hqin Hcp Hcq Heq Hmiss.
  destruct (Hrecs i row rec Hi Hrec) as (_ & _ & _ & _ & _ & Hflags).
  destruct (Hpair j p q Hp Hq) as (key & Hkp & Hkq).
  exists (if decide (strip (py_str cp) = key) then 1 else 0).
  split.
  - rewrite Hflags by (apply elem_of_app; left; by eapply list_elem_of_lookup_2).
    rewrite (flag_of_answered _ _ _ _ cp) by done. by rewrite Hkp.
  - rewrite Hflags by (apply elem_of_app; right; by eapply list_elem_of_lookup_2).
    rewrite (flag_of_answered _ _ _ _ cq) by (done || by rewrite <- Heq).
    rewrite Hkq. simpl. by rewrite Heq.
Qed.

(** ** Scenario B: a Video participant with a perfect pre-test *)

Lemma sumZ_omap_ones {A} (f : A → option Z) (l : list A) :
  (∀ c, c ∈ l → f c = Some 1) → sumZ (omap f l) = Z.of_nat (length l).
Proof.
  unfold omap. induction l as [|c l IH]; intros Hf; [done|].
  simpl list_omap. rewrite (Hf c) by left.
  simpl sumZ. rewrite IH by (intros; apply Hf; by right).
  simpl length. lia.
Qed.

Lemma sumZ_omap_none {A} (f : A → option Z) (l : list A) :
  (∀ c, c ∈ l → f c = None) → sumZ (omap f l) = 0.
Proof.
  unfold omap. induction l as [|c l IH]; intros Hf; [done|].
  simpl list_omap. rewrite (Hf c) by left.
  apply IH. intros; apply Hf; by right.
Qed.

(** C7: for a file whose name does not contain VR, a row whose pre-test
    cells are exactly the expected answers and whose post-test cells are
    blank gets pre_score 12, post_score 0 and gain -12. *)
Theorem C7_video_perfect_pre_blank_post
    (file_name : pystr) (df : DataFrame) (i : nat) (row : gmap pystr PyVal) :
  (¬ ∃ a b, file_name = a ++ lit "VR" ++ b) →
  well_formed df →
  rows df !! i = Some row →
  (∀ col, col ∈ Video_PRE →
          col ∈ columns df ∧
          ∃ key, Video_ANSWER_KEY !! col = Some key ∧
                 row !! col = Some (PStr key)) →
  (∀ col cell, col ∈ Video_POST → row !! col = Some cell →
               is_missing (strip (py_str cell)) = true) →
  ∃ recs rec,
    process (select_config file_name) df = Ok recs ∧
    recs !! i = Some rec ∧
    rec !! lit "pre_score" = Some (PInt 12) ∧
    rec !! lit "post_score" = Some (PInt 0) ∧
    rec !! lit "gain" = Some (PInt (-12)).
Proof.
  intros Hname Hwf Hi Hpre Hpost.
  rewrite (select_config_Video _ Hname).
  destruct (process_records Video_CONFIG df Hwf Video_CONFIG_ok)
    as (recs & Hproc & Hlen & Hrecs).
  destruct (lookup_lt_is_Some_2 recs i) as [rec Hrec].
  { rewrite Hlen. by eapply lookup_lt_Some. }
  destruct (Hrecs i row rec Hi Hrec) as (Hrow & _ & Hp & Hq & Hg & _).
  assert (Hsum_pre :
            sumZ (omap (flag_of Video_CONFIG (columns df) row) Video_PRE) = 12).
  { rewrite sumZ_omap_ones; [done|].
    intros col Hcol. destruct (Hpre col Hcol) as (Hin & key & Hkey & Hcell).
    destruct (Video_answers_trimmed col key Hkey) as [Hstrip Hmiss].
    assert (Hans : strip (py_str (PStr key)) = key) by done.
    rewrite (flag_of_answered _ _ _ _ (PStr key)) by (done || by rewrite Hans).
    rewrite Hans. change (ANSWER_KEY Video_CONFIG) with Video_ANSWER_KEY.
    rewrite Hkey. cbn [fmap option_fmap option_map]. by rewrite decide_True. }
  assert (Hsum_post :
            sumZ (omap (flag_of Video_CONFIG (columns df) row) Video_POST) = 0).
  { apply sumZ_omap_none. intros col Hcol. apply flag_of_missing.
    destruct (decide (col ∈ columns df)) as [Hin|Hout]; [right|by left].
    destruct (row_of_lookup _ _ _ Hrow Hin) as [cell Hcell]. eauto. }
  change (PRE_COLS Video_CONFIG) with Video_PRE in Hp, Hg.
  change (POST_COLS Video_CONFIG) with Video_POST in Hq, Hg.
  rewrite Hsum_pre in Hp, Hg. rewrite Hsum_post in Hq, Hg.
  by exists recs, rec.
Qed.

Lemma C7_video_perfect_pre_blank_post_witness :
  ∃ recs rec,
    process (select_config (lit "Video_pilot.csv")) scenario_B = Ok recs ∧
    recs !! 0%nat = Some rec ∧
    rec !! lit "pre_score" = Some (PInt 12) ∧
    rec !! lit "post_score" = Some (PInt 0) ∧
    rec !! lit "gain" = Some (PInt (-12)).
Proof.
  apply (C7_video_perfect_pre_blank_post
           (lit "Video_pilot.csv") scenario_B 0 scenario_B_row).
  - intros H. apply py_contains_spec in H. vm_compute in H. discriminate H.
  - by repeat constructor.
  - reflexivity.
  - intros col Hcol.
    assert (Hall : Forall (λ col, col ∈ columns scenario_B ∧
                                  is_Some (Video_ANSWER_KEY !! col) ∧
                                  scenario_B_row !! col =
                                  (PStr <$> Video_ANSWER_KEY !! col))
                          Video_PRE).
    { apply (bool_decide_unpack
               (Forall (λ col, col ∈ columns scenario_B ∧
                               is_Some (Video_ANSWER_KEY !! col) ∧
                               scenario_B_row !! col =
                               (PStr <$> Video_ANSWER_KEY !! col))
                       Video_PRE)).
      by vm_compute. }
    rewrite Forall_forall in Hall.
    destruct (Hall col Hcol) as (Hin & [key Hkey] & Hcell).
    split; [exact Hin|]. exists key. split; [exact Hkey|].
    rewrite Hcell, Hkey. reflexivity.
  - intros col cell Hcol.
    assert (Hall : Forall (λ col, scenario_B_row !! col = Some PNaN) Video_POST).
    { apply (bool_decide_unpack
               (Forall (λ col, scenario_B_row !! col = Some PNaN) Video_POST)).
      by vm_compute. }
    rewrite Forall_forall in Hall. rewrite (Hall col Hcol).
    intros [= <-]. by vm_compute.
Defined.

(** ** The run as a whole *)




(** ** Scenario A, through each property *)

Lemma scenario_A_well_formed : well_formed scenario_A.
Proof. by repeat constructor. Qed.

Lemma C1_flags_and_phase_scores_witness :
  ∃ rec,
    process (select_config (lit "VR_pilot.csv")) scenario_A = Ok [rec] ∧
    rec !! lit "Q16" = Some (PInt 1) ∧
    rec !! lit "Q87" = Some (PInt 1) ∧
    rec !! lit "Q88" = Some (PInt 0) ∧
    rec !! lit "pre_score" = Some (PInt (sumZ (emitted rec VR_PRE))) ∧
    rec !! lit "post_score" = Some (PInt (sumZ (emitted rec VR_POST))).
Proof.
  destruct (C1_flags_and_phase_scores (lit "VR_pilot.csv") scenario_A
              scenario_A_well_formed) as (recs & Hproc & Hlen & Hall).
  destruct recs as [|rec [|rec' recs]]; try discriminate Hlen.
  exists rec. split; [exact Hproc|].
  destruct (Hall 0%nat scenario_A_row rec eq_refl eq_refl)
    as (Hflag & Hpre & Hpost).
  assert (Hone : ∀ col text,
            col ∈ VR_PRE ++ VR_POST → col ∈ scenario_A_columns →
            scenario_A_row !! col = Some (PStr text) →
            is_missing (strip text) = false →
            ∃ key, VR_ANSWER_KEY !! col = Some key ∧
                   rec !! col =
                   Some (PInt (if decide (strip text = key) then 1 else 0))).
  { intros col text H1 H2 H3 H4. exact (Hflag col (PStr text) H1 H2 H3 H4). }
  split; [|split; [|split; [|split; [exact Hpre | exact Hpost]]]].
  - destruct (Hone (lit "Q16")
                (lit "One entire pass over all training samples"))
      as (key & Hkey & ->); [elem_of_concrete | elem_of_concrete
                            | by vm_compute | by vm_compute |].
    vm_compute in Hkey. injection Hkey as <-. by vm_compute.
  - destruct (Hone (lit "Q87")
                (lit "  One entire pass over all training samples "))
      as (key & Hkey & ->); [elem_of_concrete | elem_of_concrete
                            | by vm_compute | by vm_compute |].
    vm_compute in Hkey. injection Hkey as <-. by vm_compute.
  - destruct (Hone (lit "Q88") (lit "1 2 3 4 5 6"))
      as (key & Hkey & ->); [elem_of_concrete | elem_of_concrete
                            | by vm_compute | by vm_compute |].
    vm_compute in Hkey. injection Hkey as <-. by vm_compute.
Defined.

Lemma C2_gain_is_difference_witness :
  ∃ rec (pre post : Z),
    process (select_config (lit "VR_pilot.csv")) scenario_A = Ok [rec] ∧
    rec !! lit "pre_score" = Some (PInt pre) ∧
    rec !! lit "post_score" = Some (PInt post) ∧
    rec !! lit "gain" = Some (PInt (post - pre)).
Proof.
  destruct (C2_gain_is_difference (lit "VR_pilot.csv") scenario_A
              scenario_A_well_formed) as (recs & Hproc & Hlen & Hall).
  destruct recs as [|rec [|rec' recs]]; try discriminate Hlen.
  destruct (Hall rec (list_elem_of_here _ _)) as (pre & post & Hrec).
  exists rec, pre, post. split; [exact Hproc | exact Hrec].
Defined.

Lemma C3_score_bounds_witness :
  ∃ rec (pre post : Z),
    process (select_config (lit "VR_pilot.csv")) scenario_A = Ok [rec] ∧
    rec !! lit "pre_score" = Some (PInt pre) ∧
    rec !! lit "post_score" = Some (PInt post) ∧
    0 ≤ pre ≤ 2 ∧ 0 ≤ post ≤ 2.
Proof.
  destruct (C3_score_bounds (lit "VR_pilot.csv") scenario_A
              scenario_A_well_formed) as (recs & Hproc & Hlen & Hall).
  destruct recs as [|rec [|rec' recs]]; try discriminate Hlen.
  destruct (Hall rec (list_elem_of_here _ _))
    as (pre & post & Hpre & Hpost & Hbpre & Hbpost).
  exists rec, pre, post.
  split; [exact Hproc|]. split; [exact Hpre|]. split; [exact Hpost|].
  split; [exact Hbpre | exact Hbpost].
Defined.

Lemma C4_missing_answer_is_neutral_witness :
  ∃ rec,
    process (select_config (lit "VR_pilot.csv")) scenario_A = Ok [rec] ∧
    rec !! lit "Q17" = None ∧
    rec !! lit "Q27" = None.
Proof.
  destruct (C4_missing_answer_is_neutral (lit "VR_pilot.csv") scenario_A
              scenario_A_well_formed) as (recs & Hproc & Hlen & Hall).
  destruct recs as [|rec [|rec' recs]]; try discriminate Hlen.
  exists rec. split; [exact Hproc|]. split.
  - apply (Hall 0%nat scenario_A_row rec (lit "Q17") eq_refl eq_refl).
    + elem_of_concrete.
    + right. exists PNaN. split; by vm_compute.
  - apply (Hall 0%nat scenario_A_row rec (lit "Q27") eq_refl eq_refl).
    + elem_of_concrete.
    + left. intros Hin. apply list_elem_of_In in Hin. vm_compute in Hin.
      repeat (destruct Hin as [Hin | Hin]; [discriminate Hin|]).
      exact Hin.
Defined.

Lemma C10_paired_questions_witness :
  ∃ rec (f : Z),
    process (select_config (lit "VR_pilot.csv")) scenario_A = Ok [rec] ∧
    rec !! lit "Q16" = Some (PInt f) ∧ rec !! lit "Q87" = Some (PInt f).
Proof.
  destruct (proj2 (proj2 (C10_paired_questions (lit "VR_pilot.csv")))
              scenario_A scenario_A_well_formed)
    as (recs & Hproc & Hlen & Hall).
  destruct recs as [|rec [|rec' recs]]; try discriminate Hlen.
  destruct (Hall 0%nat scenario_A_row rec 0%nat (lit "Q16") (lit "Q87")
              (PStr (lit "One entire pass over all training samples"))
              (PStr (lit "  One entire pass over all training samples ")))
    as (f & H16 & H87);
    [ reflexivity | reflexivity | reflexivity | reflexivity
    | elem_of_concrete | elem_of_concrete
    | by vm_compute | by vm_compute | by vm_compute | by vm_compute | ].
  exists rec, f. split; [exact Hproc|]. split; [exact H16 | exact H87].
Defined.

(** ** The scenarios, by evaluation *)

Example scenario_A_records :
  process (select_config (lit "VR_pilot.csv")) scenario_A =
  Ok [ dict_of
         [ (lit "id", PInt 0); (lit "group", PStr (lit "VR"));
           (lit "cs_background", PStr (lit "Yes"));
           (lit "Q16", PInt 1); (lit "pre_score", PInt 1);
           (lit "Q87", PInt 1); (lit "Q88", PInt 0);
           (lit "post_score", PInt 1); (lit "gain", PInt 0) ] ].
Proof. vm_compute. reflexivity. Qed.

Example scenario_B_scores :
  (λ rec, (rec !! lit "group", rec !! lit "pre_score",
           rec !! lit "post_score", rec !! lit "gain", rec !! lit "Q71"))
    <$> (match process (select_config (lit "Video_pilot.csv")) scenario_B with
         | Ok recs => recs
         | Err _ => []
         end)
  = [ (Some (PStr (lit "Video")), Some (PInt 12), Some (PInt 0),
       Some (PInt (-12)), None) ].
Proof. by vm_compute. Qed.

Example run_folder_A_again :
  ∃ rec, run folder_A_again =
         ([ToCsv (lit "coded_results.csv") [rec];
           PrintSaved (lit "coded_results.csv"); PrintHead [rec]], Ok ()).
Proof. eexists. by vm_compute. Qed.

Example strip_examples :
  strip (lit "  2,3 ") = lit "2,3" ∧ strip (lit "   ") = lit "" ∧
  is_missing (strip (py_str PNaN)) = true ∧
  is_missing (strip (lit " NaN ")) = true ∧
  is_missing (strip (lit "NAN")) = false ∧
  py_str (PInt (-12)) = lit "-12".
Proof. by vm_compute. Qed.

(** * Further properties of the script *)

(** Refuting membership in a list of literals, by evaluation. *)
Ltac not_elem_of_concrete H :=
  apply list_elem_of_In in H; vm_compute in H;
  repeat (destruct H as [H | H]; [discriminate H|]);
  destruct H.

(** ** Outcome of a run *)

Lemma process_loop_length
    (build : nat → gmap pystr PyVal → result (gmap pystr PyVal))
    (l : list (nat * gmap pystr PyVal)) :
  ∀ acc recs,
    for_each (λ records '(idx, row), rec ← build idx row; Ok (records ++ [rec]))
             l acc = Ok recs →
    length recs = (length acc + length l)%nat.
Proof.
  induction l as [|[idx row] l IH]; intros acc recs Hrun.
  - simpl in Hrun. injection Hrun as <-. simpl. lia.
  - simpl in Hrun. destruct (build idx row) as [rec|e]; [|discriminate Hrun].
    simpl in Hrun. apply IH in Hrun. rewrite Hrun, length_app. simpl. lia.
Qed.

Lemma process_length cfg df recs :
  process cfg df = Ok recs → length recs = length (rows df).
Proof.
  unfold process. intros Hrun.
  apply (process_loop_length
           (λ idx, build_record cfg (columns df) (Z.of_nat idx))) in Hrun.
  by rewrite Hrun, length_imap.
Qed.

(** The three ways the statements of the script can end, by the number
    of candidate files. *)
Lemma run_cases env :
  match candidates env with
  | [] => run env = ([], Err FileNotFoundError)
  | [name] =>
      match read_csv env name with
      | Err e => run env = ([], Err e)
      | Ok df =>
          match process (select_config name) df with
          | Err e => run env = ([], Err e)
          | Ok recs =>
              run env = ([ToCsv (lit "coded_results.csv") recs;
                          PrintSaved (lit "coded_results.csv");
                          PrintHead (take 5 recs)], Ok ())
          end
      end
  | _ :: _ :: _ => run env = ([], Err RuntimeError)
  end.
Proof.
  destruct (candidates env) as [|name [|name' l]] eqn:Hc.
  - by apply run_no_candidate.
  - unfold run, script, mbind, Prog_bind.
    rewrite (discover_one env name Hc). unfold pure_step.
    destruct (read_csv env name) as [df|e]; [|done].
    by destruct (process (select_config name) df) as [recs|e].
  - apply run_many_candidates. rewrite Hc. simpl. lia.
Qed.



(** X2: a run that returns had exactly one candidate file, which
    read_csv parsed and the participant loop turned into one record per
    row; its effects are, in this order, the write of these records to
    coded_results.csv, the completion notice and the preview of the
    first five records. *)
Theorem X2_success_trace (env : Env) (tr : list Effect) :
  run env = (tr, Ok ()) →
  ∃ name df recs,
    candidates env = [name] ∧
    read_csv env name = Ok df ∧
    process (select_config name) df = Ok recs ∧
    length recs = length (rows df) ∧
    tr = [ToCsv (lit "coded_results.csv") recs;
          PrintSaved (lit "coded_results.csv");
          PrintHead (take 5 recs)].
Proof.
  intros Hrun. pose proof (run_cases env) as Hc.
  destruct (candidates env) as [|name [|name' l]];
    [rewrite Hc in Hrun; discriminate Hrun | | rewrite Hc in Hrun; discriminate Hrun].
  destruct (read_csv env name) as [df|e'] eqn:Hread;
    [|rewrite Hc in Hrun; discriminate Hrun].
  destruct (process (select_config name) df) as [recs|e'] eqn:Hproc;
    rewrite Hc in Hrun; [|discriminate Hrun].
  injection Hrun as <-. exists name, df, recs.
  repeat split; try done. exact (process_length _ _ _ Hproc).
Qed.

Lemma X2_success_trace_witness :
  ∃ recs,
    process (select_config (lit "VR_pilot.csv")) scenario_A = Ok recs ∧
    length recs = 1%nat ∧
    (run folder_A_again).1 =
      [ToCsv (lit "coded_results.csv") recs;
       PrintSaved (lit "coded_results.csv"); PrintHead (take 5 recs)].
Proof.
  assert (Hrun : run folder_A_again = ((run folder_A_again).1, Ok ())).
  { vm_compute. reflexivity. }
  destruct (X2_success_trace folder_A_again _ Hrun)
    as (name & df & recs & Hname & Hread & Hproc & Hlen & Htr).
  assert (Hc : candidates folder_A_again = [lit "VR_pilot.csv"]) by reflexivity.
  rewrite Hc in Hname. injection Hname as <-.
  injection Hread as <-.
  exists recs. split; [exact Hproc|]. split; [exact Hlen | exact Htr].
Defined.

(** ** The folder listing *)








(** ** The fields of a record *)

Lemma bg_loop_eq cols row l :
  row_of cols row →
  ∀ rec, for_each (bg_step cols row) l rec = Ok (foldl (bg_put cols row) rec l).
Proof.
  intros Hrow. induction l as [|[col newname] l IH]; intros rec; [done|].
  change (for_each (bg_step cols row) ((col, newname) :: l) rec)
    with (bg_step cols row rec (col, newname) ≫= for_each (bg_step cols row) l).
  assert (Hstep : bg_step cols row rec (col, newname) =
                  Ok (bg_put cols row rec (col, newname))).
  { unfold bg_step, bg_put. cbn [fst snd]. case_bool_decide as Hin; [|done].
    destruct (row_of_lookup _ _ _ Hrow Hin) as [cell Hcell].
    by rewrite (getitem_Some _ _ _ Hcell), Hcell. }
  rewrite Hstep. cbn [mbind result_bind]. by rewrite IH.
Qed.

Lemma bg_put_other cols row rec item k :
  k ≠ item.2 → bg_put cols row rec item !! k = rec !! k.
Proof.
  intros Hk. unfold bg_put. case_bool_decide; [|done].
  destruct (row !! item.1); [|done]. by rewrite lookup_insert_ne.
Qed.

Lemma bg_fold_other cols row l :
  ∀ rec k, k ∉ l.*2 → foldl (bg_put cols row) rec l !! k = rec !! k.
Proof.
  induction l as [|item l IH]; intros rec k Hk; [done|].
  rewrite fmap_cons, not_elem_of_cons in Hk. destruct Hk as [Hk1 Hk2].
  simpl. rewrite IH by done. by apply bg_put_other.
Qed.

Lemma bg_fold_field cols row l :
  row_of cols row → NoDup l.*2 →
  ∀ rec col newname, (col, newname) ∈ l →
    foldl (bg_put cols row) rec l !! newname =
    if bool_decide (col ∈ cols) then row !! col else rec !! newname.
Proof.
  intros Hrow. induction l as [|item l IH]; intros Hnd rec col newname Hin.
  - by apply elem_of_nil in Hin.
  - rewrite fmap_cons in Hnd. apply NoDup_cons in Hnd as [Hfresh Hnd].
    apply elem_of_cons in Hin as [<- | Hin]; simpl foldl.
    + rewrite bg_fold_other by done. unfold bg_put. cbn [fst snd].
      case_bool_decide as Hc; [|done].
      destruct (row_of_lookup _ _ _ Hrow Hc) as [cell Hcell].
      by rewrite Hcell, lookup_insert_eq.
    + rewrite (IH Hnd _ col newname Hin).
      case_bool_decide; [done|]. apply bg_put_other.
      intros ->. apply Hfresh.
      by apply (list_elem_of_fmap_2 snd _ (col, item.2)).
Qed.

Lemma BG_COLS_names_NoDup : NoDup BG_COLS.*2.
Proof. apply (bool_decide_unpack (NoDup BG_COLS.*2)). by vm_compute. Qed.

Lemma BG_COLS_names_fixed k : k ∈ BG_COLS.*2 → k ∈ fixed_keys.
Proof. unfold fixed_keys. rewrite !elem_of_app. auto. Qed.

(** The record of a row, written out: the initial fields, the
    background fields, the flags of the two phases and the three
    totals, stored in this order. *)
Lemma build_record_shape cfg cols idx row :
  row_of cols row → cfg_ok cfg →
  let rec0 := foldl (bg_put cols row)
                (dict_of [(lit "id", PInt idx); (lit "group", PStr (group cfg))])
                BG_COLS in
  let pre := sumZ (omap (flag_of cfg cols row) (PRE_COLS cfg)) in
  let post := sumZ (omap (flag_of cfg cols row) (POST_COLS cfg)) in
  build_record cfg cols idx row =
  Ok (<[lit "gain" := PInt (post - pre)]>
        (<[lit "post_score" := PInt post]>
           (put_flags cfg cols row
              (<[lit "pre_score" := PInt pre]>
                 (put_flags cfg cols row rec0 (PRE_COLS cfg)))
              (POST_COLS cfg)))).
Proof.
  intros Hrow Hok rec0 pre post.
  assert (Hpre : lit "pre_score" ∉ PRE_COLS cfg ++ POST_COLS cfg).
  { apply (cfg_ok_fixed _ _ Hok), fixed_keys_elem. set_solver. }
  unfold build_record.
  rewrite (bg_loop_eq cols row BG_COLS Hrow). fold rec0.
  cbn [mbind result_bind].
  rewrite (score_loop cfg cols row Hrow)
    by (apply (cfg_ok_keys _ _ Hok); set_solver).
  cbn [mbind result_bind].
  rewrite (score_loop cfg cols row Hrow)
    by (apply (cfg_ok_keys _ _ Hok); set_solver).
  cbn [mbind result_bind]. rewrite !Z.add_0_l. fold pre post.
  rewrite (getitem_Some _ _ _ (lookup_insert_eq _ _ _)).
  cbn [mbind result_bind].
  assert (Hpre2 : put_flags cfg cols row
                    (<[lit "pre_score" := PInt pre]>
                       (put_flags cfg cols row rec0 (PRE_COLS cfg)))
                    (POST_COLS cfg) !! lit "pre_score" = Some (PInt pre)).
  { rewrite put_flags_lookup.
    rewrite decide_False by set_solver. by rewrite lookup_insert_eq. }
  erewrite getitem_Some by (rewrite lookup_insert_ne by done; exact Hpre2).
  cbn [mbind result_bind]. unfold py_sub. simpl. reflexivity.
Qed.

(** What a record holds under its fixed keys and under every key that
    is not a scored column. *)
Lemma record_fields cfg cols idx row rec :
  row_of cols row → cfg_ok cfg →
  build_record cfg cols idx row = Ok rec →
  rec !! lit "id" = Some (PInt idx) ∧
  rec !! lit "group" = Some (PStr (group cfg)) ∧
  (∀ col newname, (col, newname) ∈ BG_COLS →
     rec !! newname = if bool_decide (col ∈ cols) then row !! col else None) ∧
  (∀ k, k ∉ fixed_keys → k ∉ PRE_COLS cfg ++ POST_COLS cfg → rec !! k = None).
Proof.
  intros Hrow Hok Hrec.
  rewrite (build_record_shape cfg cols idx row Hrow Hok) in Hrec.
  injection Hrec as <-.
  set (init := dict_of [(lit "id", PInt idx); (lit "group", PStr (group cfg))]).
  assert (Hout : ∀ k v,
            k ∉ PRE_COLS cfg ++ POST_COLS cfg →
            k ≠ lit "pre_score" → k ≠ lit "post_score" → k ≠ lit "gain" →
            foldl (bg_put cols row) init BG_COLS !! k = v →
            (<[lit "gain" := PInt
                (sumZ (omap (flag_of cfg cols row) (POST_COLS cfg)) -
                 sumZ (omap (flag_of cfg cols row) (PRE_COLS cfg)))]>
               (<[lit "post_score" :=
                    PInt (sumZ (omap (flag_of cfg cols row) (POST_COLS cfg)))]>
                  (put_flags cfg cols row
                     (<[lit "pre_score" :=
                          PInt (sumZ (omap (flag_of cfg cols row) (PRE_COLS cfg)))]>
                        (put_flags cfg cols row
                           (foldl (bg_put cols row) init BG_COLS) (PRE_COLS cfg)))
                     (POST_COLS cfg)))) !! k = v).
  { intros k v Hk H1 H2 H3 <-.
    rewrite not_elem_of_app in Hk. destruct Hk as [Hk1 Hk2].
    rewrite !lookup_insert_ne by done. rewrite put_flags_lookup.
    rewrite decide_False by done. rewrite lookup_insert_ne by done.
    rewrite put_flags_lookup. by rewrite decide_False by done. }
  assert (Hfix : ∀ k, k ∈ fixed_keys → k ∉ PRE_COLS cfg ++ POST_COLS cfg)
    by (intros k; apply (cfg_ok_fixed _ _ Hok)).
  split; [|split; [|split]].
  - apply Hout; [apply Hfix, fixed_keys_elem; set_solver | done..|].
    rewrite bg_fold_other; [done|].
    apply (bool_decide_unpack (lit "id" ∉ BG_COLS.*2)). by vm_compute.
  - apply Hout; [apply Hfix, fixed_keys_elem; set_solver | done..|].
    rewrite bg_fold_other; [done|].
    apply (bool_decide_unpack (lit "group" ∉ BG_COLS.*2)). by vm_compute.
  - intros col newname Hin.
    assert (Hname : newname ∈ BG_COLS.*2)
      by (by apply (list_elem_of_fmap_2 snd _ (col, newname))).
    assert (Hcases : newname = lit "cs_background" ∨ newname = lit "nn_course" ∨
                     newname = lit "derivative_familiarity").
    { apply list_elem_of_In in Hname. simpl in Hname. naive_solver. }
    apply Hout; [by apply Hfix, BG_COLS_names_fixed
                | by destruct Hcases as [-> | [-> | ->]].. |].
    rewrite (bg_fold_field cols row BG_COLS Hrow BG_COLS_names_NoDup _ col newname Hin).
    case_bool_decide; [done|].
    by destruct Hcases as [-> | [-> | ->]].
  - intros k Hk1 Hk2. rewrite fixed_keys_elem in Hk1.
    apply Hout; [done | set_solver..|].
    rewrite bg_fold_other.
    + unfold init, dict_of. simpl. by rewrite !lookup_insert_ne by set_solver.
    + intros Hin. apply BG_COLS_names_fixed, fixed_keys_elem in Hin. done.
Qed.

Lemma flag_of_answered_iff cfg cols row col :
  is_Some (ANSWER_KEY cfg !! col) →
  is_Some (flag_of cfg cols row col) ↔ answered cols row col = true.
Proof.
  intros [key Hkey]. unfold flag_of, answered. rewrite Hkey.
  case_bool_decide; simpl; [|by split; [intros [? ?]|]].
  destruct (row !! col) as [cell|]; [|by split; [intros [? ?]|]].
  simpl. destruct (is_missing _); simpl; split; try done.
Qed.



(** X5: each background question (Q1, Q2, Q3_1) present in the table is
    copied to the record under its new name exactly as the row holds it,
    without trimming and whether or not it is a missing marker; a
    background question absent from the table leaves no field. *)
Theorem X5_background_fields (file_name : pystr) (df : DataFrame) :
  well_formed df →
  let cfg := select_config file_name in
  ∃ recs, process cfg df = Ok recs ∧ length recs = length (rows df) ∧
    ∀ i row rec col newname,
      rows df !! i = Some row → recs !! i = Some rec →
      (col, newname) ∈ BG_COLS →
      rec !! newname = if bool_decide (col ∈ columns df) then row !! col else None.
Proof.
  intros Hwf cfg.
  destruct (process_records cfg df Hwf (select_config_ok file_name))
    as (recs & Hproc & Hlen & Hrecs).
  exists recs. split; [done|]. split; [done|].
  intros i row rec col newname Hi Hrec Hin.
  destruct (Hrecs i row rec Hi Hrec) as (Hrow & Hbuild & _).
  destruct (record_fields _ _ _ _ _ Hrow (select_config_ok file_name) Hbuild)
    as (_ & _ & Hbg & _).
  by apply Hbg.
Qed.

Lemma X5_background_fields_witness :
  ∃ rec,
    process (select_config (lit "VR_pilot.csv")) scenario_A = Ok [rec] ∧
    rec !! lit "cs_background" = Some (PStr (lit "Yes")) ∧
    rec !! lit "nn_course" = None.
Proof.
  destruct (X5_background_fields (lit "VR_pilot.csv") scenario_A
              scenario_A_well_formed) as (recs & Hproc & Hlen & Hall).
  destruct recs as [|rec [|rec' recs]]; try discriminate Hlen.
  exists rec. split; [exact Hproc|]. split.
  - rewrite (Hall 0%nat scenario_A_row rec (lit "Q1") (lit "cs_background")
               eq_refl eq_refl); [by vm_compute | elem_of_concrete].
  - rewrite (Hall 0%nat scenario_A_row rec (lit "Q2") (lit "nn_course")
               eq_refl eq_refl); [by vm_compute | elem_of_concrete].
Defined.

Lemma BG_COLS_elem col newname :
  (col, newname) ∈ BG_COLS ↔
  (col = lit "Q1" ∧ newname = lit "cs_background") ∨
  (col = lit "Q2" ∧ newname = lit "nn_course") ∨
  (col = lit "Q3_1" ∧ newname = lit "derivative_familiarity").
Proof.
  unfold BG_COLS. rewrite !elem_of_cons, elem_of_nil.
  split.
  - intros [[= -> ->] | [[= -> ->] | [[= -> ->] | []]]]; auto.
  - intros [[-> ->] | [[-> ->] | [-> ->]]]; auto.
Qed.

(** X6: the fields of a record are the five fixed ones (id, group,
    pre_score, post_score, gain), the new name of each background
    question present in the table, and each scored column the
    participant answered; a record never has any other field. *)
Theorem X6_record_fields (file_name : pystr) (df : DataFrame) :
  well_formed df →
  let cfg := select_config file_name in
  ∃ recs, process cfg df = Ok recs ∧ length recs = length (rows df) ∧
    ∀ i row rec k,
      rows df !! i = Some row → recs !! i = Some rec →
      is_Some (rec !! k) ↔
      k ∈ [lit "id"; lit "group"; lit "pre_score"; lit "post_score"; lit "gain"] ∨
      (∃ col, (col, k) ∈ BG_COLS ∧ col ∈ columns df) ∨
      (k ∈ PRE_COLS cfg ++ POST_COLS cfg ∧ answered (columns df) row k = true).
Proof.
  intros Hwf cfg.
  pose proof (select_config_ok file_name) as Hok. fold cfg in Hok.
  destruct (process_records cfg df Hwf Hok) as (recs & Hproc & Hlen & Hrecs).
  exists recs. split; [done|]. split; [done|].
  intros i row rec k Hi Hrec.
  destruct (Hrecs i row rec Hi Hrec)
    as (Hrow & Hbuild & Hpre & Hpost & Hgain & Hflags).
  destruct (record_fields _ _ _ _ _ Hrow Hok Hbuild)
    as (Hid & Hgroup & Hbg & Hnone).
  assert (Hfive : k ∈ [lit "id"; lit "group"; lit "pre_score";
                       lit "post_score"; lit "gain"] → k ∈ fixed_keys).
  { rewrite fixed_keys_elem, !elem_of_cons. tauto. }
  assert (Hnames : ∀ col, (col, k) ∈ BG_COLS → k ∈ fixed_keys).
  { intros col Hin. apply BG_COLS_names_fixed.
    by apply (list_elem_of_fmap_2 snd _ (col, k)). }
  destruct (decide (k ∈ PRE_COLS cfg ++ POST_COLS cfg)) as [Hscored|Hscored].
  - destruct (cfg_ok_scored _ _ Hok Hscored) as [Hnfix Hkey].
    rewrite (Hflags k Hscored), fmap_is_Some, (flag_of_answered_iff _ _ _ _ Hkey).
    split; [auto|]. intros [H5 | [[col [Hin _]] | [_ Hans]]]; [|by eauto|done].
    by apply Hfive in H5.
  - destruct (decide (k ∈ fixed_keys)) as [Hfix|Hfix].
    + apply (proj1 (fixed_keys_elem k)) in Hfix.
      rewrite !elem_of_cons, elem_of_nil in Hfix.
      destruct Hfix as [-> | [-> | [-> | [-> | [-> | [-> | [-> | [-> | []]]]]]]]].
      * rewrite Hid. split; [intros _; left; elem_of_concrete | by eauto].
      * rewrite Hgroup. split; [intros _; left; elem_of_concrete | by eauto].
      * rewrite (Hbg (lit "Q1") _) by (apply BG_COLS_elem; auto).
        split.
        -- case_bool_decide as Hc; [|by intros [? ?]].
           intros _. right. left. exists (lit "Q1").
           split; [apply BG_COLS_elem; auto | done].
        -- intros [H5 | [[col [Hin Hc]] | [Hs _]]]; [| |done].
           ++ exfalso. revert H5.
              apply (bool_decide_unpack
                       (lit "cs_background" ∉
                          [lit "id"; lit "group"; lit "pre_score";
                           lit "post_score"; lit "gain"])).
              by vm_compute.
           ++ apply BG_COLS_elem in Hin as [[-> _] | [[_ [=]] | [_ [=]]]].
              rewrite bool_decide_eq_true_2 by done.
              by apply (row_of_lookup _ _ _ Hrow).
      * rewrite (Hbg (lit "Q2") _) by (apply BG_COLS_elem; auto).
        split.
        -- case_bool_decide as Hc; [|by intros [? ?]].
           intros _. right. left. exists (lit "Q2").
           split; [apply BG_COLS_elem; auto | done].
        -- intros [H5 | [[col [Hin Hc]] | [Hs _]]]; [| |done].
           ++ exfalso. revert H5.
              apply (bool_decide_unpack
                       (lit "nn_course" ∉
                          [lit "id"; lit "group"; lit "pre_score";
                           lit "post_score"; lit "gain"])).
              by vm_compute.
           ++ apply BG_COLS_elem in Hin as [[_ [=]] | [[-> _] | [_ [=]]]].
              rewrite bool_decide_eq_true_2 by done.
              by apply (row_of_lookup _ _ _ Hrow).
      * rewrite (Hbg (lit "Q3_1") _) by (apply BG_COLS_elem; auto).
        split.
        -- case_bool_decide as Hc; [|by intros [? ?]].
           intros _. right. left. exists (lit "Q3_1").
           split; [apply BG_COLS_elem; auto | done].
        -- intros [H5 | [[col [Hin Hc]] | [Hs _]]]; [| |done].
           ++ exfalso. revert H5.
              apply (bool_decide_unpack
                       (lit "derivative_familiarity" ∉
                          [lit "id"; lit "group"; lit "pre_score";
                           lit "post_score"; lit "gain"])).
              by vm_compute.
           ++ apply BG_COLS_elem in Hin as [[_ [=]] | [[_ [=]] | [-> _]]].
              rewrite bool_decide_eq_true_2 by done.
              by apply (row_of_lookup _ _ _ Hrow).
      * rewrite Hpre. split; [intros _; left; elem_of_concrete | by eauto].
      * rewrite Hpost. split; [intros _; left; elem_of_concrete | by eauto].
      * rewrite Hgain. split; [intros _; left; elem_of_concrete | by eauto].
    + rewrite (Hnone k Hfix Hscored). split; [by intros [? ?]|].
      intros [H5 | [[col [Hin _]] | [Hs _]]]; [|by apply Hnames in Hin|done].
      by apply Hfive in H5.
Qed.

Lemma X6_record_fields_witness :
  ∃ rec,
    process (select_config (lit "VR_pilot.csv")) scenario_A = Ok [rec] ∧
    is_Some (rec !! lit "Q16") ∧ is_Some (rec !! lit "cs_background") ∧
    ¬ is_Some (rec !! lit "Q17") ∧ ¬ is_Some (rec !! lit "Q1").
Proof.
  destruct (X6_record_fields (lit "VR_pilot.csv") scenario_A
              scenario_A_well_formed) as (recs & Hproc & Hlen & Hall).
  destruct recs as [|rec [|rec' recs]]; try discriminate Hlen.
  exists rec. split; [exact Hproc|].
  pose proof (λ k, Hall 0%nat scenario_A_row rec k eq_refl eq_refl) as Hk.
  split; [|split; [|split]].
  - apply Hk. right. right. split; [elem_of_concrete | by vm_compute].
  - apply Hk. right. left. exists (lit "Q1").
    split; elem_of_concrete.
  - intros H. apply Hk in H.
    destruct H as [H5 | [[col [Hin _]] | [_ Hans]]].
    + not_elem_of_concrete H5.
    + apply BG_COLS_elem in Hin as [[_ [=]] | [[_ [=]] | [_ [=]]]].
    + vm_compute in Hans. discriminate Hans.
  - intros H. apply Hk in H.
    destruct H as [H5 | [[col [Hin _]] | [Hs _]]].
    + not_elem_of_concrete H5.
    + apply BG_COLS_elem in Hin as [[_ [=]] | [[_ [=]] | [_ [=]]]].
    + not_elem_of_concrete Hs.
Defined.

(** ** Trimming *)

Lemma lstrip_spaces ws s :
  Forall (λ c, py_isspace c = true) ws → lstrip (ws ++ s) = lstrip s.
Proof. induction 1 as [|c ws Hc _ IH]; [done|]. simpl. by rewrite Hc. Qed.

Lemma rstrip_spaces s ws :
  Forall (λ c, py_isspace c = true) ws → rstrip (s ++ ws) = rstrip s.
Proof.
  intros Hws. unfold rstrip. rewrite rev_app_distr, lstrip_spaces; [done|].
  apply Forall_forall. intros c Hc. rewrite Forall_forall in Hws.
  apply Hws. apply list_elem_of_In. apply list_elem_of_In in Hc.
  by apply in_rev.
Qed.

Lemma strip_pad ws1 s ws2 :
  Forall (λ c, py_isspace c = true) ws1 →
  Forall (λ c, py_isspace c = true) ws2 →
  strip (ws1 ++ s ++ ws2) = strip s.
Proof.
  intros H1 H2. unfold strip. rewrite lstrip_spaces by done.
  induction s as [|c s IH].
  - simpl. rewrite <- (app_nil_r ws2), lstrip_spaces by done. done.
  - simpl. destruct (py_isspace c); [done|].
    by rewrite app_comm_cons, rstrip_spaces.
Qed.

Lemma lstrip_decomp s :
  ∃ ws, Forall (λ c, py_isspace c = true) ws ∧ s = ws ++ lstrip s ∧
        ∀ c, head (lstrip s) = Some c → py_isspace c = false.
Proof.
  induction s as [|a s (ws & Hws & Hs & Hhead)].
  - by exists [].
  - simpl. destruct (py_isspace a) eqn:Ha.
    + exists (a :: ws). split; [by constructor|].
      split; [simpl; by f_equal | done].
    + exists []. split; [done|]. split; [done|]. simpl. by intros c [= <-].
Qed.

Lemma head_rev {A} (l : list A) : head (rev l) = last l.
Proof.
  induction l as [|a l IH]; [done|]. simpl.
  destruct l as [|b l]; [done|].
  change (last (a :: b :: l)) with (last (b :: l)). rewrite <- IH.
  simpl. by destruct (rev l).
Qed.

Lemma rstrip_decomp s :
  ∃ ws, Forall (λ c, py_isspace c = true) ws ∧ s = rstrip s ++ ws ∧
        ∀ c, last (rstrip s) = Some c → py_isspace c = false.
Proof.
  destruct (lstrip_decomp (rev s)) as (ws & Hws & Hs & Hhead).
  exists (rev ws). split; [|split].
  - apply Forall_forall. intros c Hc. rewrite Forall_forall in Hws.
    apply Hws. apply list_elem_of_In. apply list_elem_of_In in Hc.
    by apply in_rev.
  - unfold rstrip. rewrite <- rev_app_distr, <- Hs. by rewrite rev_involutive.
  - intros c. unfold rstrip. rewrite <- head_rev, rev_involutive. apply Hhead.
Qed.

(** X7: trimming removes white space only, and all of it at both ends:
    every text is its trimmed text between two runs of white-space
    characters, and the trimmed text neither starts nor ends with one. *)
Theorem X7_strip_removes_surrounding_space (s : pystr) :
  ∃ ws1 ws2,
    Forall (λ c, py_isspace c = true) ws1 ∧
    Forall (λ c, py_isspace c = true) ws2 ∧
    s = ws1 ++ strip s ++ ws2 ∧
    (∀ c, head (strip s) = Some c → py_isspace c = false) ∧
    (∀ c, last (strip s) = Some c → py_isspace c = false).
Proof.
  destruct (lstrip_decomp s) as (ws1 & Hws1 & Hs1 & Hhead).
  destruct (rstrip_decomp (lstrip s)) as (ws2 & Hws2 & Hs2 & Hlast).
  exists ws1, ws2. unfold strip. repeat split; try done.
  - by rewrite <- Hs2.
  - intros c Hc. apply Hhead. rewrite Hs2.
    destruct (rstrip (lstrip s)); [done|]. exact Hc.
Qed.

Lemma for_each_ext_in {A S} (f g : S → A → result S) l :
  (∀ st x, x ∈ l → f st x = g st x) → ∀ st, for_each f l st = for_each g l st.
Proof.
  induction l as [|x l IH]; intros Hfg st; [done|].
  simpl. rewrite Hfg by left. destruct (g st x); simpl; [|done].
  apply IH. intros st' y Hy. apply Hfg. by right.
Qed.

(** X8: white space around the text of a scored cell does not matter:
    two rows that differ only by white space added before and after the
    text of one cell, in a column that is not a background question,
    get the same record (or the same exception), for any configuration. *)
Theorem X8_padding_does_not_change_record
    (cfg : GroupConfig) (cols : list pystr) (idx : Z)
    (row : gmap pystr PyVal) (c s ws1 ws2 : pystr) :
  Forall (λ ch, py_isspace ch = true) ws1 →
  Forall (λ ch, py_isspace ch = true) ws2 →
  c ∉ BG_COLS.*1 →
  build_record cfg cols idx (<[c := PStr (ws1 ++ s ++ ws2)]> row) =
  build_record cfg cols idx (<[c := PStr s]> row).
Proof.
  intros H1 H2 Hc.
  set (row1 := <[c := PStr (ws1 ++ s ++ ws2)]> row).
  set (row2 := <[c := PStr s]> row).
  assert (Hbg : ∀ rec item, item ∈ BG_COLS →
                  bg_step cols row1 rec item = bg_step cols row2 rec item).
  { intros rec [col newname] Hin. unfold bg_step, getitem, row1, row2.
    assert (c ≠ col).
    { intros ->. apply Hc. by apply (list_elem_of_fmap_2 fst _ (col, newname)). }
    by rewrite !lookup_insert_ne. }
  assert (Hsc : ∀ st col,
             score_step cfg cols row1 st col = score_step cfg cols row2 st col).
  { intros [rec score] col. unfold score_step, getitem, row1, row2.
    case_bool_decide; [|done].
    destruct (decide (c = col)) as [->|Hne].
    - rewrite !lookup_insert_eq. cbn [mbind result_bind py_str].
      by rewrite strip_pad.
    - by rewrite !lookup_insert_ne. }
  unfold build_record.
  rewrite (for_each_ext_in _ _ BG_COLS Hbg).
  destruct (for_each (bg_step cols row2) BG_COLS _) as [rec0|]; [|done].
  cbn [mbind result_bind].
  rewrite (for_each_ext _ _ (PRE_COLS cfg) Hsc).
  destruct (for_each (score_step cfg cols row2) (PRE_COLS cfg) _)
    as [[rec1 pre]|]; [|done].
  cbn [mbind result_bind].
  by rewrite (for_each_ext _ _ (POST_COLS cfg) Hsc).
Qed.

Lemma X8_padding_does_not_change_record_witness :
  build_record VR_CONFIG scenario_A_columns 0
    (<[lit "Q88" := PStr (lit "  6 4 3 1 5 2 ")]> scenario_A_row) =
  build_record VR_CONFIG scenario_A_columns 0
    (<[lit "Q88" := PStr (lit "6 4 3 1 5 2")]> scenario_A_row).
Proof.
  apply (X8_padding_does_not_change_record VR_CONFIG scenario_A_columns 0
           scenario_A_row (lit "Q88") (lit "6 4 3 1 5 2") (lit "  ") (lit " ")).
  - by repeat constructor.
  - by repeat constructor.
  - intros H. not_elem_of_concrete H.
Defined.

(** ** Bounds on the totals *)

Lemma present_le_length cols l : (present cols l ≤ length l)%nat.
Proof. unfold present. apply List.filter_length_le. Qed.

Lemma select_config_lengths file_name :
  length (PRE_COLS (select_config file_name)) = 12%nat ∧
  length (POST_COLS (select_config file_name)) = 12%nat.
Proof. by destruct (select_config_cases file_name) as [-> | ->]. Qed.

(** X9: in every record the gain lies between minus the number of
    pre-test columns present in the table and the number of post-test
    columns present, hence between -12 and 12, and neither score
    exceeds 12. *)
Theorem X9_gain_bounds (file_name : pystr) (df : DataFrame) :
  well_formed df →
  let cfg := select_config file_name in
  ∃ recs, process cfg df = Ok recs ∧ length recs = length (rows df) ∧
    ∀ rec, rec ∈ recs →
      ∃ pre post gain : Z,
        rec !! lit "pre_score" = Some (PInt pre) ∧
        rec !! lit "post_score" = Some (PInt post) ∧
        rec !! lit "gain" = Some (PInt gain) ∧
        - Z.of_nat (present (columns df) (PRE_COLS cfg)) ≤ gain
          ≤ Z.of_nat (present (columns df) (POST_COLS cfg)) ∧
        pre ≤ 12 ∧ post ≤ 12 ∧ -12 ≤ gain ≤ 12.
Proof.
  intros Hwf cfg.
  destruct (process_records cfg df Hwf (select_config_ok file_name))
    as (recs & Hproc & Hlen & Hrecs).
  exists recs. split; [done|]. split; [done|].
  intros rec [i Hrec]%list_elem_of_lookup.
  destruct (lookup_lt_is_Some_2 (rows df) i) as [row Hi].
  { rewrite <- Hlen. by eapply lookup_lt_Some. }
  destruct (Hrecs i row rec Hi Hrec) as (_ & _ & Hpre & Hpost & Hgain & _).
  pose proof (score_bounds cfg (columns df) row (PRE_COLS cfg)) as Bpre.
  pose proof (score_bounds cfg (columns df) row (POST_COLS cfg)) as Bpost.
  pose proof (present_le_length (columns df) (PRE_COLS cfg)) as Lpre.
  pose proof (present_le_length (columns df) (POST_COLS cfg)) as Lpost.
  destruct (select_config_lengths file_name) as [L1 L2].
  fold cfg in L1, L2. rewrite L1 in Lpre. rewrite L2 in Lpost.
  eexists _, _, _. split; [exact Hpre|]. split; [exact Hpost|].
  split; [exact Hgain|]. lia.
Qed.

Lemma X9_gain_bounds_witness :
  ∃ rec (gain : Z),
    process (select_config (lit "VR_pilot.csv")) scenario_A = Ok [rec] ∧
    rec !! lit "gain" = Some (PInt gain) ∧ -2 ≤ gain ≤ 2.
Proof.
  destruct (X9_gain_bounds (lit "VR_pilot.csv") scenario_A
              scenario_A_well_formed) as (recs & Hproc & Hlen & Hall).
  destruct recs as [|rec [|rec' recs]]; try discriminate Hlen.
  destruct (Hall rec (list_elem_of_here _ _))
    as (pre & post & gain & _ & _ & Hgain & Hb & _).
  exists rec, gain. split; [exact Hproc|]. split; [exact Hgain | exact Hb].
Defined.

(** X10: when the table has none of the columns of the selected
    configuration (as when a VR export is saved under a name without
    VR), the run raises nothing: every record has pre_score, post_score
    and gain 0 and no flag field. *)
Theorem X10_no_scored_column_in_table (file_name : pystr) (df : DataFrame) :
  well_formed df →
  let cfg := select_config file_name in
  (∀ col, col ∈ PRE_COLS cfg ++ POST_COLS cfg → col ∉ columns df) →
  ∃ recs, process cfg df = Ok recs ∧ length recs = length (rows df) ∧
    ∀ rec, rec ∈ recs →
      rec !! lit "pre_score" = Some (PInt 0) ∧
      rec !! lit "post_score" = Some (PInt 0) ∧
      rec !! lit "gain" = Some (PInt 0) ∧
      ∀ col, col ∈ PRE_COLS cfg ++ POST_COLS cfg → rec !! col = None.
Proof.
  intros Hwf cfg Hnone.
  destruct (process_records cfg df Hwf (select_config_ok file_name))
    as (recs & Hproc & Hlen & Hrecs).
  exists recs. split; [done|]. split; [done|].
  intros rec [i Hrec]%list_elem_of_lookup.
  destruct (lookup_lt_is_Some_2 (rows df) i) as [row Hi].
  { rewrite <- Hlen. by eapply lookup_lt_Some. }
  destruct (Hrecs i row rec Hi Hrec) as (_ & _ & Hpre & Hpost & Hgain & Hflags).
  assert (Hflag : ∀ col, col ∈ PRE_COLS cfg ++ POST_COLS cfg →
                         flag_of cfg (columns df) row col = None).
  { intros col Hcol. apply flag_of_missing. left. by apply Hnone. }
  assert (S1 : sumZ (omap (flag_of cfg (columns df) row) (PRE_COLS cfg)) = 0)
    by (apply sumZ_omap_none; intros c Hc; apply Hflag, elem_of_app; by left).
  assert (S2 : sumZ (omap (flag_of cfg (columns df) row) (POST_COLS cfg)) = 0)
    by (apply sumZ_omap_none; intros c Hc; apply Hflag, elem_of_app; by right).
  rewrite S1 in Hpre, Hgain. rewrite S2 in Hpost, Hgain.
  repeat split; try done.
  intros col Hcol. by rewrite (Hflags col Hcol), (Hflag col Hcol).
Qed.

Lemma X10_no_scored_column_in_table_witness :
  ∃ rec,
    process (select_config (lit "pilot.csv")) scenario_A = Ok [rec] ∧
    rec !! lit "pre_score" = Some (PInt 0) ∧
    rec !! lit "post_score" = Some (PInt 0) ∧
    rec !! lit "gain" = Some (PInt 0).
Proof.
  destruct (X10_no_scored_column_in_table (lit "pilot.csv") scenario_A
              scenario_A_well_formed) as (recs & Hproc & Hlen & Hall).
  { apply Forall_forall.
    apply (bool_decide_unpack
             (Forall (λ col, col ∉ columns scenario_A)
                     (PRE_COLS (select_config (lit "pilot.csv")) ++
                      POST_COLS (select_config (lit "pilot.csv"))))).
    by vm_compute. }
  destruct recs as [|rec [|rec' recs]]; try discriminate Hlen.
  destruct (Hall rec (list_elem_of_here _ _)) as (Hpre & Hpost & Hgain & _).
  exists rec. split; [exact Hproc|].
  split; [exact Hpre|]. split; [exact Hpost | exact Hgain].
Defined.

(** ** A column without an answer-key entry *)

Lemma score_step_lazy cfg cols row rec s col :
  row_of cols row →
  (answered cols row col = true → is_Some (ANSWER_KEY cfg !! col)) →
  score_step cfg cols row (rec, PInt s) col =
  Ok (put_flags cfg cols row rec [col],
      PInt (s + default 0 (flag_of cfg cols row col))).
Proof.
  intros Hrow Hkey. unfold answered in Hkey.
  destruct (decide (col ∈ cols)) as [Hin|Hout].
  - destruct (row_of_lookup _ _ _ Hrow Hin) as [cell Hcell].
    rewrite Hcell, bool_decide_eq_true_2 in Hkey by done. simpl in Hkey.
    destruct (is_missing (strip (py_str cell))) eqn:Hmiss.
    + unfold score_step, put_flags, flag_of. simpl.
      rewrite bool_decide_eq_true_2 by done.
      rewrite (getitem_Some _ _ _ Hcell), Hcell. simpl. rewrite Hmiss.
      by rewrite Z.add_0_r.
    + by apply score_step_flag, Hkey.
  - unfold score_step, put_flags, flag_of. simpl.
    rewrite bool_decide_eq_false_2 by done. by rewrite Z.add_0_r.
Qed.

Lemma score_step_raises cfg cols row st col :
  answered cols row col = true → ANSWER_KEY cfg !! col = None →
  score_step cfg cols row st col = Err (KeyError col).
Proof.
  unfold answered, score_step. destruct st as [rec score].
  intros Hans Hkey. apply andb_true_iff in Hans as [Hin Hcell].
  rewrite Hin. destruct (row !! col) as [cell|] eqn:Hrow; [|done].
  rewrite (getitem_Some _ _ _ Hrow). cbn [mbind result_bind].
  apply negb_true_iff in Hcell. rewrite Hcell.
  unfold getitem. by rewrite Hkey.
Qed.

(** A scoring loop either runs through, when every column the
    participant answered has an expected answer, or stops with KeyError
    at the first answered column that has none. *)
Lemma score_loop_cases cfg cols row l :
  row_of cols row →
  ∀ rec s,
    (for_each (score_step cfg cols row) l (rec, PInt s) =
       Ok (put_flags cfg cols row rec l,
           PInt (s + sumZ (omap (flag_of cfg cols row) l))) ∧
     ∀ c, c ∈ l → answered cols row c = true →
          is_Some (ANSWER_KEY cfg !! c)) ∨
    (∃ c, c ∈ l ∧ answered cols row c = true ∧ ANSWER_KEY cfg !! c = None ∧
          for_each (score_step cfg cols row) l (rec, PInt s) =
          Err (KeyError c)).
Proof.
  intros Hrow. induction l as [|col l IH]; intros rec s.
  - left. split; [simpl; by rewrite Z.add_0_r|]. by intros c Hc%elem_of_nil.
  - change (for_each (score_step cfg cols row) (col :: l) (rec, PInt s))
      with (score_step cfg cols row (rec, PInt s) col ≫=
            for_each (score_step cfg cols row) l).
    destruct (answered cols row col) eqn:Hans;
      [destruct (ANSWER_KEY cfg !! col) as [key|] eqn:Hkey|].
    + rewrite score_step_lazy by (done || by rewrite Hkey).
      cbn [mbind result_bind].
      destruct (IH (put_flags cfg cols row rec [col])
                  (s + default 0 (flag_of cfg cols row col)))
        as [[Hrun Hall] | (c & Hc & Hca & Hck & Hrun)].
      * left. split.
        -- rewrite Hrun, sumZ_omap_cons. simpl. do 3 f_equal. lia.
        -- intros c [-> | Hc]%elem_of_cons Hc'; [by rewrite Hkey | by apply Hall].
      * right. exists c. split; [by right|]. done.
    + right. exists col. split; [by left|]. split; [done|]. split; [done|].
      by rewrite score_step_raises.
    + rewrite score_step_lazy by (done || by rewrite Hans).
      cbn [mbind result_bind].
      destruct (IH (put_flags cfg cols row rec [col])
                  (s + default 0 (flag_of cfg cols row col)))
        as [[Hrun Hall] | (c & Hc & Hca & Hck & Hrun)].
      * left. split.
        -- rewrite Hrun, sumZ_omap_cons. simpl. do 3 f_equal. lia.
        -- intros c [-> | Hc]%elem_of_cons Hc'; [congruence | by apply Hall].
      * right. exists c. split; [by right|]. done.
Qed.

(** X11: the lookup ANSWER_KEY[col] is reached only for a column the
    participant answered. For any configuration, the record of a row is
    built exactly when every scored column the row answers has an
    answer-key entry; otherwise the row raises KeyError for such a
    column, and no other exception is possible. *)
Theorem X11_missing_answer_key_entry
    (cfg : GroupConfig) (cols : list pystr) (idx : Z) (row : gmap pystr PyVal) :
  row_of cols row →
  ((∃ rec, build_record cfg cols idx row = Ok rec) ↔
   (∀ col, col ∈ PRE_COLS cfg ++ POST_COLS cfg →
           answered cols row col = true → is_Some (ANSWER_KEY cfg !! col))) ∧
  (∀ e, build_record cfg cols idx row = Err e →
        ∃ col, e = KeyError col ∧ col ∈ PRE_COLS cfg ++ POST_COLS cfg ∧
               answered cols row col = true ∧ ANSWER_KEY cfg !! col = None).
Proof.
  intros Hrow.
  assert (Hcases :
    (∃ rec, build_record cfg cols idx row = Ok rec ∧
       ∀ col, col ∈ PRE_COLS cfg ++ POST_COLS cfg →
              answered cols row col = true → is_Some (ANSWER_KEY cfg !! col)) ∨
    (∃ col, build_record cfg cols idx row = Err (KeyError col) ∧
            col ∈ PRE_COLS cfg ++ POST_COLS cfg ∧
            answered cols row col = true ∧ ANSWER_KEY cfg !! col = None)).
  { unfold build_record.
    rewrite (bg_loop_eq cols row BG_COLS Hrow). cbn [mbind result_bind].
    set (rec0 := foldl (bg_put cols row) _ BG_COLS).
    destruct (score_loop_cases cfg cols row (PRE_COLS cfg) Hrow rec0 0)
      as [[-> Hpre] | (c & Hc & Hca & Hck & ->)];
      [|right; exists c; split; [done|]; split; [apply elem_of_app; by left|done]].
    cbn [mbind result_bind].
    set (rec1 := <[lit "pre_score" := _]> _).
    destruct (score_loop_cases cfg cols row (POST_COLS cfg) Hrow rec1 0)
      as [[-> Hpost] | (c & Hc & Hca & Hck & ->)];
      [|right; exists c; split; [done|]; split; [apply elem_of_app; by right|done]].
    cbn [mbind result_bind].
    rewrite (getitem_Some _ _ _ (lookup_insert_eq _ _ _)).
    cbn [mbind result_bind].
    assert (Hpre_int : ∃ z, put_flags cfg cols row rec1 (POST_COLS cfg)
                              !! lit "pre_score" = Some (PInt z)).
    { rewrite put_flags_lookup.
      destruct (if decide (lit "pre_score" ∈ POST_COLS cfg)
                then flag_of cfg cols row (lit "pre_score") else None);
        [by eexists|].
      unfold rec1. rewrite lookup_insert_eq. by eexists. }
    destruct Hpre_int as [z Hz].
    erewrite getitem_Some by (rewrite lookup_insert_ne by done; exact Hz).
    cbn [mbind result_bind]. unfold py_sub. simpl.
    left. eexists. split; [reflexivity|].
    intros col [Hcol | Hcol]%elem_of_app; [by apply Hpre | by apply Hpost]. }
  split; [split|].
  - intros [rec Hrec] col Hcol Hans.
    destruct Hcases as [(rec' & _ & Hall) | (c & Herr & _)]; [by apply Hall|].
    congruence.
  - intros Hall.
    destruct Hcases as [(rec & Hrec & _) | (c & _ & Hc & Hca & Hck)];
      [by exists rec|].
    destruct (Hall c Hc Hca) as [key Hkey]. congruence.
  - intros e He.
    destruct Hcases as [(rec & Hrec & _) | (c & Herr & Hc)]; [congruence|].
    exists c. split; [congruence | done].
Qed.

Lemma X11_missing_answer_key_entry_witness :
  (∃ rec, build_record CONFIG_without_Q17 scenario_A_columns 0 scenario_A_row
          = Ok rec) ∧
  ∃ col, build_record CONFIG_without_Q17 scenario_A_columns 0
           (<[lit "Q17" := PStr (lit "6 4 3 1 5 2")]> scenario_A_row)
         = Err (KeyError col) ∧
         ANSWER_KEY CONFIG_without_Q17 !! col = None.
Proof.
  split.
  - apply (X11_missing_answer_key_entry CONFIG_without_Q17 scenario_A_columns
             0 scenario_A_row); [by vm_compute|].
    assert (Hall : Forall (λ col, answered scenario_A_columns scenario_A_row col
                                  = true →
                                  is_Some (ANSWER_KEY CONFIG_without_Q17 !! col))
                          (PRE_COLS CONFIG_without_Q17 ++
                           POST_COLS CONFIG_without_Q17)).
    { apply (bool_decide_unpack
               (Forall (λ col, answered scenario_A_columns scenario_A_row col
                               = true →
                               is_Some (ANSWER_KEY CONFIG_without_Q17 !! col))
                       (PRE_COLS CONFIG_without_Q17 ++
                        POST_COLS CONFIG_without_Q17))).
      by vm_compute. }
    rewrite Forall_forall in Hall. exact Hall.
  - destruct (proj2 (X11_missing_answer_key_entry CONFIG_without_Q17
                       scenario_A_columns 0
                       (<[lit "Q17" := PStr (lit "6 4 3 1 5 2")]> scenario_A_row)
                       ltac:(by vm_compute))
                (KeyError (lit "Q17")) ltac:(by vm_compute))
      as (col & He & _ & _ & Hkey).
    exists col. split; [|exact Hkey]. rewrite <- He. by vm_compute.
Defined.
